(** * A verification model of the AI support chat backend (apps/api).

    Shallow embedding of the delegation and streaming core: the billing tools
    [checkRefundStatus] and [requestRefund] (tools/billing.tools.ts), the
    responder loop [BaseAgent.streamResponse] (agents/base.agent.ts), the
    delegator [RouterAgent.route] and [RouterAgent.processMessage]
    (agents/router.agent.ts), [ConversationService] (services/
    conversation.service.ts) and the orchestrator [ChatService.streamChat]
    (services/chat.service.ts).

    Modelling choices.
    - JavaScript numbers are modelled as rationals [Q]: the code only
      compares, subtracts and tests them for truthiness.
    - A JavaScript string is a [string]; each character stands for one
      UTF-16 code unit, so [String.length] is [.length] and [substring] is
      [.substring].
    - Database rows are identified by [nat] ids handed out by a counter.
    - The persisted store is threaded explicitly; every write is also
      recorded in a write log, so that what a run persisted is observable.
    - An async generator is a function producing the list of chunks it yields
      together with its outcome: normal completion or a thrown exception. *)

From Stdlib Require Import List String Ascii Bool Arith Lia QArith.
Import ListNotations.
Open Scope string_scope.

(* ------------------------------------------------------------------------ *)
(** ** Shared data *)

Inductive AgentType := support | order | billing.

Inductive MessageRole := user | assistant | system.

Definition role_eqb (a b : MessageRole) : bool :=
  match a, b with
  | user, user | assistant, assistant | system, system => true
  | _, _ => false
  end.

(** A thrown value: an [Error] instance with its message, or anything else. *)
Inductive Exn :=
| ErrorObj (message : string)
| OtherThrown.

(** [error instanceof Error ? error.message : dflt] *)
Definition exn_message (e : Exn) (dflt : string) : string :=
  match e with
  | ErrorObj m => m
  | OtherThrown => dflt
  end.

(** JavaScript truthiness of a number: [0] is falsy. *)
Definition num_truthy (x : Q) : bool := negb (Qeq_bool x 0).

(** [a || b] on numbers. *)
Definition num_or (a : option Q) (b : Q) : Q :=
  match a with
  | Some x => if num_truthy x then x else b
  | None => b
  end.

(** [a > b] on numbers. *)
Definition num_gt (a b : Q) : bool := negb (Qle_bool a b).

(** [a < b] on numbers. *)
Definition num_lt (a b : Q) : bool := num_gt b a.

(* ------------------------------------------------------------------------ *)
(** ** Persisted rows (Prisma models used by the code) *)

Inductive PaymentStatus :=
| pending | completed | failed | refunded | partially_refunded.

Definition status_eqb (a b : PaymentStatus) : bool :=
  match a, b with
  | pending, pending | completed, completed | failed, failed
  | refunded, refunded | partially_refunded, partially_refunded => true
  | _, _ => false
  end.

Record Payment := mkPayment {
  invoiceNumber : string;
  amount : Q;
  pstatus : PaymentStatus;
  method : string;
  refundAmount : option Q;
  refundReason : option string
}.

Record Conversation := mkConversation {
  conv_id : nat;
  conv_userId : string;
  conv_title : option string
}.

(** A tool-call entry as kept in the orchestrator's [toolCalls] array. *)
Record ToolRecord := mkToolRecord {
  tr_tool : string;
  tr_args : option string;
  tr_result : option string
}.

Record Message := mkMessage {
  msg_id : nat;
  msg_conversationId : nat;
  msg_role : MessageRole;
  msg_content : string;
  msg_agentType : option AgentType;
  msg_toolCalls : option (list ToolRecord)
}.

(** The writes the store receives. *)
Inductive Write :=
| WCreateConversation (id : nat)
| WAddMessage (conversationId : nat) (role : MessageRole) (content : string)
| WUpdateTitle (conversationId : nat) (title : string).

Definition is_title_write (w : Write) : bool :=
  match w with WUpdateTitle _ _ => true | _ => false end.

Record DB := mkDB {
  conversations : list Conversation;
  messages : list Message;      (** in creation order, i.e. by createdAt *)
  payments : list Payment;
  next_id : nat;
  writes : list Write           (** the log of writes, oldest first *)
}.

(* ------------------------------------------------------------------------ *)
(** ** Stream chunks ([StreamChunk] of chat.service.ts) *)

(** The data of a [done] chunk: the responder's own ([{ fullText, toolCalls }],
    base.agent.ts) or the orchestrator's ([{ conversationId, messageId,
    agentType, fullText }], chat.service.ts). *)
Inductive DoneData :=
| AgentDone (fullText : string) (toolCalls : list ToolRecord)
| ChatDone (conversationId : nat) (messageId : nat) (agentType : AgentType)
    (fullText : string).

Inductive Chunk :=
| CRouting (agent : AgentType) (agentName : string) (reason : string) (confidence : Q)
| CThinking (message : string) (conversationId : option nat)
| CToolCall (tool : string) (args : string)
| CToolResult (tool : string) (result : string)
| CTextDelta (delta : string)
| CDone (data : DoneData)
| CError (message : string).

Definition is_done (c : Chunk) : bool :=
  match c with CDone _ => true | _ => false end.

Definition is_error (c : Chunk) : bool :=
  match c with CError _ => true | _ => false end.

Definition is_routing (c : Chunk) : bool :=
  match c with CRouting _ _ _ _ => true | _ => false end.

Definition is_tool_call_or_text (c : Chunk) : bool :=
  match c with CToolCall _ _ | CTextDelta _ => true | _ => false end.

(** Concatenation of the [delta] fields of the [text_delta] chunks. *)
Fixpoint deltas (cs : list Chunk) : string :=
  match cs with
  | [] => ""
  | CTextDelta d :: cs' => d ++ deltas cs'
  | _ :: cs' => deltas cs'
  end.

(* ------------------------------------------------------------------------ *)
(** ** The generator monad: store, exceptions and yielded chunks *)

(** A computation reads and writes the store, yields chunks, and either
    returns a value or throws. *)
Definition M (A : Type) : Type := DB -> (list Chunk * (A + Exn)) * DB.

Definition ret {A} (a : A) : M A := fun db => ([], inl a, db).

Definition bind {A B} (m : M A) (k : A -> M B) : M B :=
  fun db =>
    match m db with
    | (cs, inl a, db') =>
        match k a db' with
        | (cs', r, db'') => ((cs ++ cs')%list, r, db'')
        end
    | (cs, inr e, db') => (cs, inr e, db')
    end.

Definition throw {A} (e : Exn) : M A := fun db => ([], inr e, db).

Definition yield (c : Chunk) : M unit := fun db => ([c], inl tt, db).

Notation "x <- m ;; k" := (bind m (fun x => k))
  (at level 61, m at next level, right associativity).
Notation "m ;; k" := (bind m (fun _ => k))
  (at level 61, right associativity).

(** [db.payment.findUnique({ where: { invoiceNumber } })] *)
Definition findPayment (inv : string) : M (option Payment) :=
  fun db => ([], inl (find (fun p => String.eqb (invoiceNumber p) inv) (payments db)), db).

(* ------------------------------------------------------------------------ *)
(** ** Billing tools (tools/billing.tools.ts) *)

(** The [message] field of [checkRefundStatus]: the text is kept as the data
    it is formatted from. *)
Inductive RefundMessage :=
| RMProcessed (refundAmount : option Q) (remaining : option Q)
    (** "A refund of $... has been processed. " followed by the remaining
        balance when partially refunded ([Some]), "Full refund completed."
        otherwise ([None]) *)
| RMEligible
| RMCannotRefund (status : PaymentStatus).

Record RefundStatus := mkRefundStatus {
  rs_invoiceNumber : string;
  rs_originalAmount : Q;
  rs_paymentStatus : PaymentStatus;
  rs_hasRefund : bool;
  rs_refundAmount : option Q;
  rs_refundReason : option string;
  rs_remainingBalance : option Q;
  rs_refundEligible : bool;
  rs_message : RefundMessage
}.

Inductive CheckRefundResult :=
| CRNotFound (invoice : string)
| CRFound (refundStatus : RefundStatus).

Definition checkRefundStatus (inv : string) : M CheckRefundResult :=
  payment <- findPayment inv ;;
  match payment with
  | None => ret (CRNotFound inv)
  | Some p =>
      let hasRefund := status_eqb (pstatus p) refunded
                       || status_eqb (pstatus p) partially_refunded in
      ret (CRFound {|
        rs_invoiceNumber := invoiceNumber p;
        rs_originalAmount := amount p;
        rs_paymentStatus := pstatus p;
        rs_hasRefund := hasRefund;
        rs_refundAmount := refundAmount p;
        rs_refundReason := refundReason p;
        rs_remainingBalance :=
          if hasRefund then Some (amount p - num_or (refundAmount p) 0)%Q else None;
        rs_refundEligible := status_eqb (pstatus p) completed;
        rs_message :=
          if hasRefund
          then RMProcessed (refundAmount p)
                 (if status_eqb (pstatus p) partially_refunded
                  then Some (amount p - num_or (refundAmount p) 0)%Q else None)
          else if status_eqb (pstatus p) completed then RMEligible
          else RMCannotRefund (pstatus p) |})
  end.

Record RefundRequest := mkRefundRequest {
  rr_invoiceNumber : string;
  rr_originalAmount : Q;
  rr_refundAmount : Q;
  rr_isPartialRefund : bool;
  rr_reason : string;
  rr_refundMethod : string;     (** "Original payment method (<method>)" *)
  rr_referenceStamp : Z         (** [REF-${Date.now()}] *)
}.

Inductive RequestRefundResult :=
| RRNotFound (invoice : string)
| RRBadStatus (invoice : string) (currentStatus : PaymentStatus)
| RRExceeds (refundAmount originalAmount : Q)
| RRSuccess (refundRequest : RefundRequest).

Definition rr_success (r : RequestRefundResult) : bool :=
  match r with RRSuccess _ => true | _ => false end.

(** [now] is the value of [Date.now()] at the call. *)
Definition requestRefund (inv : string) (amt : option Q) (reason : string) (now : Z)
  : M RequestRefundResult :=
  payment <- findPayment inv ;;
  match payment with
  | None => ret (RRNotFound inv)
  | Some p =>
      if negb (status_eqb (pstatus p) completed)
      then ret (RRBadStatus inv (pstatus p))
      else
        let refundAmt := num_or amt (amount p) in
        if num_gt refundAmt (amount p)
        then ret (RRExceeds refundAmt (amount p))
        else ret (RRSuccess {|
          rr_invoiceNumber := invoiceNumber p;
          rr_originalAmount := amount p;
          rr_refundAmount := refundAmt;
          rr_isPartialRefund := num_lt refundAmt (amount p);
          rr_reason := reason;
          rr_refundMethod := "Original payment method (" ++ method p ++ ")";
          rr_referenceStamp := now |})
  end.

(* ------------------------------------------------------------------------ *)
(** ** The text-generation capability *)

(** [CoreMessage] with string content, as built by the orchestrator. *)
Record CoreMessage := mkCoreMessage {
  cm_role : MessageRole;
  cm_content : string
}.

Record AgentContext := mkAgentContext {
  ctx_userId : string;
  ctx_conversationId : nat;
  ctx_messages : list CoreMessage
}.

(** [RoutingResult], the arguments of the router's [route] tool. *)
Record RoutingResult := mkRoutingResult {
  rt_agent : AgentType;
  rt_confidence : Q;
  rt_reasoning : string
}.

(** A [generateText] request of the router: system prompt, the single user
    prompt, and the forced tool choice. *)
Record GenRequest := mkGenRequest {
  gr_system : string;
  gr_prompt : string;
  gr_toolChoice : string
}.

(** A tool call returned by [generateText] (its arguments already parsed with
    [routingSchema]). *)
Record LlmToolCall := mkLlmToolCall {
  tc_toolName : string;
  tc_args : RoutingResult
}.

Record GenResult := mkGenResult {
  gen_toolCalls : list LlmToolCall
}.

(** A part of [streamText(...).fullStream]. *)
Inductive StreamPart :=
| PToolCall (toolName : string) (args : string)
| PToolResult (toolName : string) (result : string)
| PTextDelta (textDelta : string)
| POther.   (** step-start, step-finish, finish, error parts, ... *)

(** What the external capability does: the answer to a [generateText] call
    (or the exception it throws), and per responder run the parts of the full
    stream, followed by normal end ([None]) or a thrown exception, and the
    tool calls [onStepFinish] collected. *)
Record LLM := mkLLM {
  generateText : GenRequest -> GenResult + Exn;
  fullStream : AgentType -> AgentContext -> list StreamPart * option Exn;
  stepToolCalls : AgentType -> AgentContext -> list ToolRecord
}.

(* ------------------------------------------------------------------------ *)
(** ** Responders (agents/base.agent.ts) *)

Record BaseAgent := mkBaseAgent {
  agent_type : AgentType;
  agent_name : string
}.

Definition supportAgent : BaseAgent := mkBaseAgent support "Support Agent".
Definition orderAgent : BaseAgent := mkBaseAgent order "Order Agent".
Definition billingAgent : BaseAgent := mkBaseAgent billing "Billing Agent".

(** The [for await] loop of [streamResponse]: the chunks yielded for the
    parts, and the final value of [fullText]. *)
Fixpoint stream_loop (parts : list StreamPart) (fullText : string)
  : list Chunk * string :=
  match parts with
  | [] => ([], fullText)
  | PToolCall n a :: ps =>
      let '(cs, ft) := stream_loop ps fullText in (CToolCall n a :: cs, ft)
  | PToolResult n r :: ps =>
      let '(cs, ft) := stream_loop ps fullText in (CToolResult n r :: cs, ft)
  | PTextDelta d :: ps =>
      let '(cs, ft) := stream_loop ps (fullText ++ d) in (CTextDelta d :: cs, ft)
  | POther :: ps => stream_loop ps fullText
  end.

(** [BaseAgent.streamResponse]: given the full stream (parts and how it
    ends) and the tool calls collected by [onStepFinish], the chunks yielded
    and the exception the generator throws, if any. *)
Definition streamResponse (stream : list StreamPart * option Exn)
    (toolCalls : list ToolRecord) : list Chunk * option Exn :=
  let '(parts, ending) := stream in
  let '(cs, fullText) := stream_loop parts "" in
  match ending with
  | None => (cs ++ [CDone (AgentDone fullText toolCalls)], None)%list
  | Some e => (cs, Some e)
  end.

(** The run of responder [a] on [ctx] against the capability [llm]. *)
Definition agent_run (llm : LLM) (a : BaseAgent) (ctx : AgentContext)
  : list Chunk * option Exn :=
  streamResponse (fullStream llm (agent_type a) ctx) (stepToolCalls llm (agent_type a) ctx).

(* ------------------------------------------------------------------------ *)
(** ** The delegator (agents/router.agent.ts) *)

(** Programs that may call [generateText]: the router's classification step. *)
Inductive Prog (A : Type) :=
| Ret (a : A)
| GenerateText (req : GenRequest) (k : GenResult -> Prog A).
Arguments Ret {A} a.
Arguments GenerateText {A} req k.

(** Running a program against the capability: its outcome and the requests it
    sent to [generateText], in order. An exception of [generateText]
    propagates. *)
Fixpoint run_prog {A} (llm : LLM) (p : Prog A) : (A + Exn) * list GenRequest :=
  match p with
  | Ret a => (inl a, [])
  | GenerateText req k =>
      match generateText llm req with
      | inl res => let '(r, reqs) := run_prog llm (k res) in (r, req :: reqs)
      | inr e => (inr e, [req])
      end
  end.

Definition getAgent (t : AgentType) : option BaseAgent :=
  match t with
  | support => Some supportAgent
  | order => Some orderAgent
  | billing => Some billingAgent
  end.

Definition nl : string := String (ascii_of_nat 10) "".
Definition dq : string := String (ascii_of_nat 34) "".

(** [ROUTER_SYSTEM_PROMPT]; only its first line is kept, the text does not
    take part in the control flow. *)
Definition ROUTER_SYSTEM_PROMPT : string :=
  "You are a Router Agent that analyzes customer queries and delegates them to the appropriate specialized agent.".

(** [[...context.messages].reverse().find((m) => m.role === 'user')] *)
Definition last_user_message (msgs : list CoreMessage) : option CoreMessage :=
  find (fun m => role_eqb (cm_role m) user) (rev msgs).

(** [xs.slice(-n)] *)
Definition slice_last {A} (n : nat) (xs : list A) : list A :=
  skipn (List.length xs - n) xs.

(** The request [route] sends for the last user message [last]. *)
Definition router_request (ctx : AgentContext) (last : CoreMessage) : GenRequest :=
  let recentAgentMessages :=
    slice_last 3 (filter (fun m => role_eqb (cm_role m) assistant) (ctx_messages ctx)) in
  let conversationContext :=
    if Nat.ltb 0 (List.length recentAgentMessages)
    then "Recent conversation has been with agents handling previous queries."
    else "This is the start of the conversation." in
  {| gr_system := ROUTER_SYSTEM_PROMPT;
     gr_prompt :=
       "Context: " ++ conversationContext ++ nl ++ nl
       ++ "Current user message: " ++ dq ++ cm_content last ++ dq ++ nl ++ nl
       ++ "Analyze this message and route it to the appropriate agent. Call the route tool with your decision.";
     gr_toolChoice := "route" |}.

Definition route_fallback : BaseAgent * RoutingResult :=
  (supportAgent,
   {| rt_agent := support; rt_confidence := 1#2;
      rt_reasoning := "Could not determine intent, defaulting to support" |}).

(** [RouterAgent.route] *)
Definition route (ctx : AgentContext) : Prog (BaseAgent * RoutingResult) :=
  match last_user_message (ctx_messages ctx) with
  | None =>
      Ret (supportAgent,
           {| rt_agent := support; rt_confidence := 1;
              rt_reasoning := "No user message found, defaulting to support" |})
  | Some last =>
      GenerateText (router_request ctx last) (fun result =>
        match hd_error (gen_toolCalls result) with
        | Some toolCall =>
            if String.eqb (tc_toolName toolCall) "route"
            then
              let routing := tc_args toolCall in
              let agent := match getAgent (rt_agent routing) with
                           | Some a => a
                           | None => supportAgent
                           end in
              Ret (agent, routing)
            else Ret route_fallback
        | None => Ret route_fallback
        end)
  end.

(** [RouterAgent.processMessage]. Every exception is caught and turned into
    an [error] chunk, so the generator itself always completes. *)
Definition processMessage (llm : LLM) (ctx : AgentContext) : list Chunk :=
  let catch_ e := [CError (exn_message e "An unexpected error occurred")] in
  CThinking "Analyzing your request..." None ::
  match fst (run_prog llm (route ctx)) with
  | inr e => catch_ e
  | inl (agent, routing) =>
      CRouting (agent_type agent) (agent_name agent) (rt_reasoning routing)
               (rt_confidence routing)
      :: CThinking ("Connecting you with " ++ agent_name agent ++ "...") None
      :: (let '(cs, ending) := agent_run llm agent ctx in
          match ending with
          | None => cs
          | Some e => cs ++ catch_ e
          end)%list
  end.

(* ------------------------------------------------------------------------ *)
(** ** Conversation store (services/conversation.service.ts) *)

Definition conv_exists (db : DB) (cid : nat) : bool :=
  existsb (fun c => Nat.eqb (conv_id c) cid) (conversations db).

(** The messages of conversation [cid], ordered by [createdAt]. *)
Definition conv_messages (db : DB) (cid : nat) : list Message :=
  filter (fun m => Nat.eqb (msg_conversationId m) cid) (messages db).

(** [ConversationService.createConversation(userId)] (no title). *)
Definition createConversation (userId : string) : M Conversation :=
  fun db =>
    let c := {| conv_id := next_id db; conv_userId := userId; conv_title := None |} in
    ([], inl c,
     {| conversations := conversations db ++ [c];
        messages := messages db;
        payments := payments db;
        next_id := S (next_id db);
        writes := writes db ++ [WCreateConversation (next_id db)] |})%list.

Record CreateMessageInput := mkCreateMessageInput {
  cmi_conversationId : nat;
  cmi_role : MessageRole;
  cmi_content : string;
  cmi_agentType : option AgentType;
  cmi_toolCalls : option (list ToolRecord)
}.

(** [ConversationService.addMessage(input)]: [db.message.create] fails on the
    foreign key when the conversation does not exist; the [updatedAt]
    bump of the conversation is not modelled. *)
Definition addMessage (input : CreateMessageInput) : M Message :=
  fun db =>
    if conv_exists db (cmi_conversationId input) then
      let m := {| msg_id := next_id db;
                  msg_conversationId := cmi_conversationId input;
                  msg_role := cmi_role input;
                  msg_content := cmi_content input;
                  msg_agentType := cmi_agentType input;
                  msg_toolCalls := cmi_toolCalls input |} in
      ([], inl m,
       {| conversations := conversations db;
          messages := messages db ++ [m];
          payments := payments db;
          next_id := S (next_id db);
          writes := writes db ++ [WAddMessage (cmi_conversationId input)
                                    (cmi_role input) (cmi_content input)] |})%list
    else ([], inr (ErrorObj "Foreign key constraint failed"), db).

(** [ConversationService.getMessages(conversationId)]: default [take: 50]. *)
Definition getMessages (cid : nat) : M (list Message) :=
  fun db => ([], inl (firstn 50 (conv_messages db cid)), db).

(** [ConversationService.updateConversation(conversationId, { title })]: a
    failing update is caught and gives [null]. *)
Definition updateConversation (cid : nat) (title : string) : M (option Conversation) :=
  fun db =>
    if conv_exists db cid then
      let upd c := if Nat.eqb (conv_id c) cid
                   then {| conv_id := conv_id c; conv_userId := conv_userId c;
                           conv_title := Some title |}
                   else c in
      ([], inl (find (fun c => Nat.eqb (conv_id c) cid) (map upd (conversations db))),
       {| conversations := map upd (conversations db);
          messages := messages db;
          payments := payments db;
          next_id := next_id db;
          writes := writes db ++ [WUpdateTitle cid title] |})%list
    else ([], inl None, db).

(** The title expression of [generateTitle]:
    [content.length > 50 ? content.substring(0, 47) + '...' : content]. *)
Definition title_of (content : string) : string :=
  if Nat.ltb 50 (String.length content)
  then substring 0 47 content ++ "..."
  else content.

(** [ConversationService.generateTitle(conversationId)] *)
Definition generateTitle (cid : nat) : M string :=
  fun db =>
    let msgs := firstn 2 (conv_messages db cid) in
    match msgs with
    | [] => ret "New Conversation" db
    | _ :: _ =>
        match find (fun m => role_eqb (msg_role m) user) msgs with
        | None => ret "New Conversation" db
        | Some firstUserMessage =>
            let title := title_of (msg_content firstUserMessage) in
            (updateConversation cid title ;; ret title) db
        end
    end.

(* ------------------------------------------------------------------------ *)
(** ** The orchestrator (services/chat.service.ts) *)

Record ChatInput := mkChatInput {
  in_userId : string;
  in_conversationId : option nat;
  in_message : string
}.

(** The loop variables of [streamChat]: [fullResponse], [agentType],
    [toolCalls]. *)
Record LoopState := mkLoopState {
  ls_fullResponse : string;
  ls_agentType : AgentType;
  ls_toolCalls : list ToolRecord
}.

(** The body of the [for await] loop of [streamChat], before the [yield]. *)
Definition loop_step (st : LoopState) (chunk : Chunk) : LoopState :=
  match chunk with
  | CRouting a _ _ _ => {| ls_fullResponse := ls_fullResponse st; ls_agentType := a;
                           ls_toolCalls := ls_toolCalls st |}
  | CTextDelta d => {| ls_fullResponse := ls_fullResponse st ++ d;
                       ls_agentType := ls_agentType st; ls_toolCalls := ls_toolCalls st |}
  | CToolCall t a => {| ls_fullResponse := ls_fullResponse st; ls_agentType := ls_agentType st;
                        ls_toolCalls := ls_toolCalls st ++ [mkToolRecord t (Some a) None] |}%list
  | CToolResult t r => {| ls_fullResponse := ls_fullResponse st; ls_agentType := ls_agentType st;
                          ls_toolCalls := ls_toolCalls st ++ [mkToolRecord t None (Some r)] |}%list
  | CDone (AgentDone ft tcs) =>
      (* [doneData.fullText || fullResponse]; an array is always truthy *)
      {| ls_fullResponse := if String.eqb ft "" then ls_fullResponse st else ft;
         ls_agentType := ls_agentType st; ls_toolCalls := tcs |}
  | CDone (ChatDone _ _ _ ft) =>
      {| ls_fullResponse := if String.eqb ft "" then ls_fullResponse st else ft;
         ls_agentType := ls_agentType st; ls_toolCalls := ls_toolCalls st |}
  | CThinking _ _ | CError _ => st
  end.

(** The [for await] loop: every chunk of the delegator is processed, then
    yielded. *)
Fixpoint stream_through (chunks : list Chunk) (st : LoopState) : M LoopState :=
  match chunks with
  | [] => ret st
  | c :: cs => let st' := loop_step st c in yield c ;; stream_through cs st'
  end.

(** [toolCalls.filter((t) => t.tool).length > 0 ? toolCalls : undefined] *)
Definition saved_toolCalls (tcs : list ToolRecord) : option (list ToolRecord) :=
  if existsb (fun t => negb (String.eqb (tr_tool t) "")) tcs then Some tcs else None.

(** [ChatService.streamChat(input)] *)
Definition streamChat (llm : LLM) (input : ChatInput) : M unit :=
  conversationId <-
    match in_conversationId input with
    | Some cid => ret cid
    | None =>
        conversation <- createConversation (in_userId input) ;;
        yield (CThinking "Starting new conversation..." (Some (conv_id conversation))) ;;
        ret (conv_id conversation)
    end ;;
  addMessage (mkCreateMessageInput conversationId user (in_message input) None None) ;;
  history <- getMessages conversationId ;;
  let msgs := map (fun m => mkCoreMessage (msg_role m) (msg_content m)) history in
  st <- stream_through
          (processMessage llm (mkAgentContext (in_userId input) conversationId msgs))
          (mkLoopState "" support []) ;;
  savedMessage <- addMessage (mkCreateMessageInput conversationId assistant
                                (ls_fullResponse st) (Some (ls_agentType st))
                                (saved_toolCalls (ls_toolCalls st))) ;;
  (if Nat.eqb (List.length history) 1
   then generateTitle conversationId ;; ret tt
   else ret tt) ;;
  yield (CDone (ChatDone conversationId (msg_id savedMessage) (ls_agentType st)
                         (ls_fullResponse st))).

(* ------------------------------------------------------------------------ *)
(** ** The non-streaming path (services/chat.service.ts, agents/*.ts) *)

(** What a responder's [generateText] call of [BaseAgent.generateResponse]
    gives: the final text and the tool calls its [onStepFinish] collected,
    or the exception it throws. *)
Definition Responder : Type :=
  AgentType -> AgentContext -> (string * list ToolRecord) + Exn.

Record AgentResponse := mkAgentResponse {
  ar_content : string;
  ar_toolCalls : option (list ToolRecord)
}.

(** [BaseAgent.generateResponse(context)] *)
Definition agent_generateResponse (respond : Responder) (a : BaseAgent)
    (ctx : AgentContext) : AgentResponse + Exn :=
  match respond (agent_type a) ctx with
  | inl (text, toolCalls) =>
      inl {| ar_content := text;
             ar_toolCalls := if Nat.ltb 0 (List.length toolCalls)
                             then Some toolCalls else None |}
  | inr e => inr e
  end.

(** [RouterAgent.generateResponse(context)]: an exception of [route] or of
    the responder propagates. *)
Definition router_generateResponse (llm : LLM) (respond : Responder)
    (ctx : AgentContext) : (AgentType * RoutingResult * AgentResponse) + Exn :=
  match fst (run_prog llm (route ctx)) with
  | inr e => inr e
  | inl (agent, routing) =>
      match agent_generateResponse respond agent ctx with
      | inl response => inl (agent_type agent, routing, response)
      | inr e => inr e
      end
  end.

(** An awaited promise inside the generator monad. *)
Definition lift {A} (r : A + Exn) : M A :=
  match r with inl a => ret a | inr e => throw e end.

Record ChatResult := mkChatResult {
  cr_conversationId : nat;
  cr_messageId : nat;
  cr_agentType : AgentType;
  cr_response : string;
  cr_toolsUsed : list string
}.

(** [ChatService.chat(input)] *)
Definition chat (llm : LLM) (respond : Responder) (input : ChatInput) : M ChatResult :=
  conversationId <-
    match in_conversationId input with
    | Some cid => ret cid
    | None =>
        conversation <- createConversation (in_userId input) ;;
        ret (conv_id conversation)
    end ;;
  addMessage (mkCreateMessageInput conversationId user (in_message input) None None) ;;
  history <- getMessages conversationId ;;
  let msgs := map (fun m => mkCoreMessage (msg_role m) (msg_content m)) history in
  result <- lift (router_generateResponse llm respond
                    (mkAgentContext (in_userId input) conversationId msgs)) ;;
  let '(agent, _, response) := result in
  savedMessage <- addMessage (mkCreateMessageInput conversationId assistant
                                (ar_content response) (Some agent)
                                (ar_toolCalls response)) ;;
  (if Nat.eqb (List.length history) 1
   then generateTitle conversationId ;; ret tt
   else ret tt) ;;
  ret {| cr_conversationId := conversationId;
         cr_messageId := msg_id savedMessage;
         cr_agentType := agent;
         cr_response := ar_content response;
         (* [result.response.toolCalls?.map((t) => t.tool) || []] *)
         cr_toolsUsed := match ar_toolCalls response with
                         | Some tcs => map tr_tool tcs
                         | None => []
                         end |}.

(* ------------------------------------------------------------------------ *)
(** ** Agents controller (controllers/agents.controller.ts) *)

(** [RouterAgent.getAgent(type)] on the route parameter: the [switch] on the
    string, [null] in its [default] case. *)
Definition getAgent_param (type : string) : option BaseAgent :=
  if String.eqb type "support" then Some supportAgent
  else if String.eqb type "order" then Some orderAgent
  else if String.eqb type "billing" then Some billingAgent
  else None.

Definition validTypes : list string := ["support"; "order"; "billing"].

(** The outcome of [AgentsController.getAgentCapabilities]: the responder
    whose capabilities are sent, or the [ApiError] thrown. *)
Inductive CapabilitiesOutcome :=
| CapOk (agent : BaseAgent)
| CapBadRequest (message : string)   (** [ApiError.badRequest], status 400 *)
| CapNotFound (message : string).    (** [ApiError.notFound], status 404 *)

Definition getAgentCapabilities_ctrl (type : string) : CapabilitiesOutcome :=
  if negb (existsb (String.eqb type) validTypes)
  then CapBadRequest ("Invalid agent type. Must be one of: " ++ String.concat ", " validTypes)
  else
    (* [chatService.getAgentCapabilities(type)] is [null] exactly when
       [getAgent(type)] is *)
    match getAgent_param type with
    | Some a => CapOk a
    | None => CapNotFound "Agent not found"
    end.

(* ------------------------------------------------------------------------ *)
(** ** Order tools (tools/order.tools.ts) *)

Inductive OrderStatus :=
| ord_pending | ord_processing | ord_shipped | ord_delivered | ord_cancelled.

Definition order_status_str (s : OrderStatus) : string :=
  match s with
  | ord_pending => "pending"
  | ord_processing => "processing"
  | ord_shipped => "shipped"
  | ord_delivered => "delivered"
  | ord_cancelled => "cancelled"
  end.

Definition order_status_eqb (a b : OrderStatus) : bool :=
  match a, b with
  | ord_pending, ord_pending | ord_processing, ord_processing
  | ord_shipped, ord_shipped | ord_delivered, ord_delivered
  | ord_cancelled, ord_cancelled => true
  | _, _ => false
  end.

Record Order := mkOrder {
  orderNumber : string;
  ostatus : OrderStatus;
  total : Q;
  trackingNumber : option string;
  estimatedDelivery : option string;
  shippingAddress : string;
  updatedAt : Z
}.

(** [db.order.findUnique({ where: { orderNumber } })] on the order table;
    the order tools only read it. *)
Definition findOrder (orders : list Order) (num : string) : option Order :=
  find (fun o => String.eqb (orderNumber o) num) orders.

(** [a || b] on an optional string. *)
Definition str_or (a : option string) (b : string) : string :=
  match a with
  | Some s => if String.eqb s "" then b else s
  | None => b
  end.

Inductive CancelOrderResult :=
| CONotFound (orderNumber : string)
| COAlreadyShipped (orderNumber : string) (currentStatus : OrderStatus)
| COAlreadyCancelled (orderNumber : string)
| COCancelled (orderNumber : string) (previousStatus : OrderStatus)
    (refundAmount : Q) (cancellationReason : string).

Definition co_success (r : CancelOrderResult) : bool :=
  match r with COCancelled _ _ _ _ => true | _ => false end.

(** [cancelOrder.execute({ orderNumber, reason })] *)
Definition cancelOrder (orders : list Order) (num : string) (reason : option string)
  : CancelOrderResult :=
  match findOrder orders num with
  | None => CONotFound num
  | Some o =>
      if order_status_eqb (ostatus o) ord_shipped
         || order_status_eqb (ostatus o) ord_delivered
      then COAlreadyShipped num (ostatus o)
      else if order_status_eqb (ostatus o) ord_cancelled
      then COAlreadyCancelled num
      else COCancelled (orderNumber o) (ostatus o) (total o)
             (str_or reason "Customer requested cancellation")
  end.

Inductive ModifyOrderResult :=
| MONotFound (orderNumber : string)
| MOFound (canModify : bool) (orderNumber : string) (currentStatus : OrderStatus)
    (message : string) (availableActions : list string).

Definition mo_canModify (r : ModifyOrderResult) : bool :=
  match r with MONotFound _ => false | MOFound b _ _ _ _ => b end.

Definition mo_actions (r : ModifyOrderResult) : list string :=
  match r with MONotFound _ => [] | MOFound _ _ _ _ acts => acts end.

(** [modifyOrder.execute({ orderNumber })] *)
Definition modifyOrder (orders : list Order) (num : string) : ModifyOrderResult :=
  match findOrder orders num with
  | None => MONotFound num
  | Some o =>
      let canModify := order_status_eqb (ostatus o) ord_pending
                       || order_status_eqb (ostatus o) ord_processing in
      MOFound canModify (orderNumber o) (ostatus o)
        (if canModify
         then "This order can be modified. Available options: change shipping address, add/remove items, or cancel order."
         else "This order cannot be modified because it is already "
                ++ order_status_str (ostatus o) ++ ". "
                ++ (if order_status_eqb (ostatus o) ord_shipped
                    then "You can track your delivery or initiate a return after receiving it."
                    else ""))
        (if canModify then ["change_address"; "modify_items"; "cancel_order"]
         else if order_status_eqb (ostatus o) ord_shipped
         then ["track_delivery"; "initiate_return"]
         else if order_status_eqb (ostatus o) ord_delivered
         then ["initiate_return"; "leave_review"]
         else [])
  end.

Record TrackingStep := mkTrackingStep {
  ts_status : string;
  ts_completed : bool;
  ts_date : option Z
}.

(** [trackingSteps[order.status] || []] *)
Definition trackingSteps (o : Order) : list TrackingStep :=
  let d := Some (updatedAt o) in
  match ostatus o with
  | ord_pending => [mkTrackingStep "Order Placed" true d]
  | ord_processing =>
      [mkTrackingStep "Order Placed" true d; mkTrackingStep "Payment Confirmed" true d;
       mkTrackingStep "Preparing for Shipment" false None]
  | ord_shipped =>
      [mkTrackingStep "Order Placed" true d; mkTrackingStep "Payment Confirmed" true d;
       mkTrackingStep "Shipped" true d; mkTrackingStep "In Transit" true d;
       mkTrackingStep "Out for Delivery" false None]
  | ord_delivered =>
      [mkTrackingStep "Order Placed" true d; mkTrackingStep "Payment Confirmed" true d;
       mkTrackingStep "Shipped" true d; mkTrackingStep "Delivered" true d]
  | ord_cancelled =>
      [mkTrackingStep "Order Placed" true d; mkTrackingStep "Order Cancelled" true d]
  end.

Record Delivery := mkDelivery {
  dl_orderNumber : string;
  dl_currentStatus : OrderStatus;
  dl_trackingNumber : option string;
  dl_estimatedDelivery : option string;
  dl_shippingAddress : string;
  dl_trackingSteps : list TrackingStep;
  dl_carrier : option string;
  dl_trackingUrl : option string
}.

Inductive DeliveryResult :=
| DLNotFound (orderNumber : string)
| DLFound (delivery : Delivery).

(** [order.trackingNumber ? ... : null]: an empty string is falsy. *)
Definition tracking_truthy (tn : option string) : option string :=
  match tn with
  | Some s => if String.eqb s "" then None else Some s
  | None => None
  end.

(** [checkDeliveryStatus.execute({ orderNumber })] *)
Definition checkDeliveryStatus (orders : list Order) (num : string) : DeliveryResult :=
  match findOrder orders num with
  | None => DLNotFound num
  | Some o =>
      DLFound {|
        dl_orderNumber := orderNumber o;
        dl_currentStatus := ostatus o;
        dl_trackingNumber := trackingNumber o;
        dl_estimatedDelivery := estimatedDelivery o;
        dl_shippingAddress := shippingAddress o;
        dl_trackingSteps := trackingSteps o;
        dl_carrier := match tracking_truthy (trackingNumber o) with
                      | Some _ => Some "UPS" | None => None end;
        dl_trackingUrl := match tracking_truthy (trackingNumber o) with
                          | Some tn => Some ("https://www.ups.com/track?tracknum=" ++ tn)
                          | None => None end |}
  end.

(* ------------------------------------------------------------------------ *)
(** ** Rate limiting (middleware/ratelimit.middleware.ts) *)

(** An entry of the module-level [rateLimitStore]; times are [Date.now()]
    values in milliseconds. *)
Record RateLimitEntry := mkRateLimitEntry {
  rl_count : Z;
  rl_resetTime : Z
}.

(** The [Map<string, RateLimitStore>], in insertion order. *)
Definition RateLimitMap : Type := list (string * RateLimitEntry).

(** [Map.prototype.get] *)
Fixpoint map_get (k : string) (m : RateLimitMap) : option RateLimitEntry :=
  match m with
  | [] => None
  | (k', v) :: m' => if String.eqb k' k then Some v else map_get k m'
  end.

(** [Map.prototype.set]: an existing key keeps its place. *)
Fixpoint map_set (k : string) (v : RateLimitEntry) (m : RateLimitMap) : RateLimitMap :=
  match m with
  | [] => [(k, v)]
  | (k', v') :: m' =>
      if String.eqb k' k then (k', v) :: m' else (k', v') :: map_set k v m'
  end.

Record RateLimitConfig := mkRateLimitConfig {
  windowMs : Z;
  maxRequests : Z;
  rl_message : string
}.

(** [chatRateLimit] and [apiRateLimit] (their key generators are
    [chat_key] and [default_key]). *)
Definition chatRateLimitConfig : RateLimitConfig :=
  mkRateLimitConfig (60 * 1000) 20
    "You are sending messages too quickly. Please wait a moment.".
Definition apiRateLimitConfig : RateLimitConfig :=
  mkRateLimitConfig (60 * 1000) 100 "Too many requests, please try again later".

(** The default key: [x-forwarded-for || x-real-ip || 'unknown'] and the
    path. *)
Definition default_key (xForwardedFor xRealIp : option string) (path : string) : string :=
  str_or xForwardedFor (str_or xRealIp "unknown") ++ ":" ++ path.

(** The key of [chatRateLimit]: [chat:${x-user-id || 'anonymous'}]. *)
Definition chat_key (xUserId : option string) : string :=
  "chat:" ++ str_or xUserId "anonymous".

(** [Math.ceil(x / 1000)] for an integer [x]. *)
Definition ceil_div1000 (x : Z) : Z := (- ((- x) / 1000))%Z.

(** What the handler does with the request: set its headers and call [next()]
    ([RLNext]: X-RateLimit-Limit, -Remaining, -Reset), or set its headers
    (Retry-After, X-RateLimit-Limit, -Reset; -Remaining is 0) and throw
    [ApiError.tooManyRequests(message)] ([RLTooMany]). *)
Inductive RateLimitOutcome :=
| RLNext (limit remaining reset : Z)
| RLTooMany (retryAfter limit reset : Z) (message : string).

Definition rl_passed (o : RateLimitOutcome) : bool :=
  match o with RLNext _ _ _ => true | RLTooMany _ _ _ _ => false end.

(** The handler returned by [rateLimit(config)], for a request with rate
    limit key [key] at time [now]. *)
Definition rateLimit_handler (cfg : RateLimitConfig) (key : string) (now : Z)
    (store : RateLimitMap) : RateLimitOutcome * RateLimitMap :=
  let new_window :=
    let store' := map_set key (mkRateLimitEntry 1 (now + windowMs cfg)) store in
    (RLNext (maxRequests cfg) (Z.max 0 (maxRequests cfg - 1)) (now + windowMs cfg), store') in
  match map_get key store with
  | None => new_window
  | Some entry =>
      if Z.ltb (rl_resetTime entry) now then new_window
      else
        (* [entry.count++] updates the stored object *)
        let entry' := mkRateLimitEntry (rl_count entry + 1) (rl_resetTime entry) in
        let store' := map_set key entry' store in
        if Z.ltb (maxRequests cfg) (rl_count entry')
        then (RLTooMany (ceil_div1000 (rl_resetTime entry' - now)) (maxRequests cfg)
                        (rl_resetTime entry') (rl_message cfg), store')
        else (RLNext (maxRequests cfg) (Z.max 0 (maxRequests cfg - rl_count entry'))
                     (rl_resetTime entry'), store')
  end.

(** The periodic cleanup at time [now]: entries whose window has ended are
    deleted. *)
Definition rl_cleanup (now : Z) (store : RateLimitMap) : RateLimitMap :=
  filter (fun kv => negb (Z.ltb (rl_resetTime (snd kv)) now)) store.

(** Successive requests with the same key at the times [times]. *)
Fixpoint rate_run (cfg : RateLimitConfig) (key : string) (times : list Z)
    (store : RateLimitMap) : list RateLimitOutcome * RateLimitMap :=
  match times with
  | [] => ([], store)
  | t :: ts =>
      let '(o, store1) := rateLimit_handler cfg key t store in
      let '(os, store2) := rate_run cfg key ts store1 in
      (o :: os, store2)
  end.

(** The agent named by the first [routing] chunk of a chunk sequence, and
    [support] when there is none (the initial value of [agentType] in
    [streamChat]). *)
Definition routed_agent (cs : list Chunk) : AgentType :=
  match find is_routing cs with
  | Some (CRouting a _ _ _) => a
  | _ => support
  end.

(* ------------------------------------------------------------------------ *)
(** ** Concrete inputs *)

Definition empty_db : DB := mkDB [] [] [] 0 [].

Definition db_with_payment (p : Payment) : DB := mkDB [] [] [p] 0 [].

(** A fully refunded payment whose refund amount was not recorded. *)
Definition refunded_payment : Payment :=
  mkPayment "INV-2024-004" 100 refunded "credit_card" None None.

(** A completed payment of negative amount (a [Float] column admits it). *)
Definition negative_payment : Payment :=
  mkPayment "INV-2024-009" (-5) completed "credit_card" None None.

(** A capability that routes to billing and whose responder stream completes
    after a tool call, its result and two text deltas. *)
Definition llm_ok : LLM := {|
  generateText := fun _ =>
    inl (mkGenResult [mkLlmToolCall "route" (mkRoutingResult billing (9#10) "Refund question")]);
  fullStream := fun _ _ =>
    ([PToolCall "checkRefundStatus" "{}"; PToolResult "checkRefundStatus" "{}";
      PTextDelta "Hel"; POther; PTextDelta "lo"], None);
  stepToolCalls := fun _ _ => [mkToolRecord "checkRefundStatus" (Some "{}") (Some "{}")] |}.

(** A capability whose classification returns no tool call and whose
    responder stream throws after one text delta. *)
Definition llm_failing : LLM := {|
  generateText := fun _ => inl (mkGenResult []);
  fullStream := fun _ _ => ([PTextDelta "Hel"], Some (ErrorObj "Stream interrupted"));
  stepToolCalls := fun _ _ => [] |}.

Definition input_new : ChatInput := mkChatInput "user_demo" None "hi".

(** A completed payment of 100. *)
Definition completed_payment : Payment :=
  mkPayment "INV-2024-001" 100 completed "credit_card" None None.

(** A classification call that throws. *)
Definition llm_router_down : LLM := {|
  generateText := fun _ => inr (ErrorObj "Service unavailable");
  fullStream := fun _ _ => ([], None);
  stepToolCalls := fun _ _ => [] |}.

(** Responders for the non-streaming path: one that answers, one that
    throws. *)
Definition respond_ok : Responder := fun _ _ => inl ("Your refund is on its way.", []).
Definition respond_down : Responder := fun _ _ => inr (ErrorObj "Model overloaded").

Definition demo_orders : list Order :=
  [mkOrder "ORD-2024-001" ord_shipped 129 (Some "1Z999AA10123456784") None "12 Main St" 1700000000000;
   mkOrder "ORD-2024-002" ord_processing 59 None None "12 Main St" 1700000000000].

(* ------------------------------------------------------------------------ *)
(** * Properties *)

(** ** Generic lemmas *)

Lemma bind_inl_inv {A B} (m : M A) (k : A -> M B) db cs b db'' :
  bind m k db = (cs, inl b, db'') ->
  exists cs1 a db1 cs2,
    m db = (cs1, inl a, db1) /\ k a db1 = (cs2, inl b, db'') /\ cs = (cs1 ++ cs2)%list.
Proof.
  unfold bind. destruct (m db) as [[cs1 [a|e]] db1].
  - destruct (k a db1) as [[cs2 r] db2] eqn:Ek. intros H; inversion H; subst.
    exists cs1, a, db1, cs2. auto.
  - intros H; inversion H.
Qed.

Lemma find_none_forall {A} (f : A -> bool) (l : list A) :
  Forall (fun x => f x = false) l -> find f l = None.
Proof.
  induction 1 as [|x l Hx _ IH]; simpl; [reflexivity|]. now rewrite Hx.
Qed.

Lemma str_app_nil_r (s : string) : s ++ "" = s.
Proof. induction s as [|c s IH]; cbn; [reflexivity|]. now rewrite IH. Qed.

Lemma str_app_assoc (a b c : string) : a ++ (b ++ c) = (a ++ b) ++ c.
Proof. induction a as [|x a IH]; cbn; [reflexivity|]. now rewrite IH. Qed.

Lemma app_cons_last_inv {A} (P : A -> Prop) (l1 l2 cs : list A) (x d : A) :
  Forall (fun y => ~ P y) cs -> P x ->
  (l1 ++ x :: l2 = cs ++ [d])%list -> l1 = cs /\ x = d /\ l2 = [].
Proof.
  revert l1. induction cs as [|c cs IH]; intros l1 Hcs Hx Heq.
  - destruct l1 as [|a l1]; cbn in Heq; inversion Heq; subst; auto.
    destruct l1; discriminate.
  - inversion Hcs as [|? ? Hc Hcs']; subst.
    destruct l1 as [|a l1]; cbn in Heq; inversion Heq; subst.
    + contradiction.
    + destruct (IH l1 Hcs' Hx H1) as [-> [-> ->]]. auto.
Qed.

Lemma in_app_cons {A} (l1 l2 : list A) (x : A) : In x (l1 ++ x :: l2)%list.
Proof. apply in_or_app. right. left. reflexivity. Qed.

Lemma filter_none {A} (f : A -> bool) (l : list A) :
  Forall (fun x => f x = false) l -> filter f l = [].
Proof. induction 1 as [|x l Hx _ IH]; cbn; [reflexivity|]. now rewrite Hx. Qed.

(** ** Billing tools *)

Lemma findPayment_run inv db :
  findPayment inv db = ([], inl (find (fun p => String.eqb (invoiceNumber p) inv) (payments db)), db).
Proof. reflexivity. Qed.

(** Claim C3, as stated, fails: for a fully refunded payment (status
    [refunded], amount 100, refund amount not recorded) [checkRefundStatus]
    reports [hasRefund: true] with the non-null [remainingBalance] 100,
    although the status is not [partially_refunded] and the balance is not 0. *)
Lemma checkRefundStatus_refunded_counterexample :
  match checkRefundStatus "INV-2024-004" (db_with_payment refunded_payment) with
  | (_, inl (CRFound rs), _) =>
      rs_paymentStatus rs = refunded /\ rs_hasRefund rs = true /\
      rs_remainingBalance rs = Some 100%Q /\ ~ (100 == 0)%Q
  | _ => False
  end.
Proof.
  vm_compute. repeat split; try reflexivity. discriminate.
Qed.

(** Claim C3 (amended): for a payment found under [inv], [checkRefundStatus]
    leaves the store unchanged and reports [hasRefund: true] exactly when the
    status is [refunded] or [partially_refunded]; [remainingBalance] is
    non-null exactly then, and equals [amount - (refundAmount || 0)]; for a
    fully refunded payment it is 0 exactly when the recorded refund amount
    (0 when absent) equals the payment amount. *)
Theorem checkRefundStatus_remainingBalance inv db p :
  find (fun q => String.eqb (invoiceNumber q) inv) (payments db) = Some p ->
  exists rs,
    checkRefundStatus inv db = ([], inl (CRFound rs), db) /\
    (rs_hasRefund rs = true <-> pstatus p = refunded \/ pstatus p = partially_refunded) /\
    (rs_remainingBalance rs <> None <-> rs_hasRefund rs = true) /\
    (forall r, rs_remainingBalance rs = Some r -> r = (amount p - num_or (refundAmount p) 0)%Q) /\
    (pstatus p = refunded ->
       exists r, rs_remainingBalance rs = Some r /\
                 ((r == 0)%Q <-> (num_or (refundAmount p) 0 == amount p)%Q)).
Proof.
  intros Hfind. unfold checkRefundStatus, bind. rewrite findPayment_run, Hfind.
  eexists; split; [reflexivity|]. cbn.
  destruct (pstatus p) eqn:Hs; cbn;
    (split; [split; [intros H; discriminate H || auto
                    |intros [H|H]; discriminate H || reflexivity]|]);
    (split; [split; [intros H; (exfalso; apply H; reflexivity) || reflexivity
                    |intros H; discriminate H || discriminate]|]);
    (split; [intros r Hr; inversion Hr; reflexivity|]);
    intros Hst; try discriminate Hst.
  eexists; split; [reflexivity|].
  split; intros H.
  - apply (Qplus_inj_r _ _ (- num_or (refundAmount p) 0)).
    rewrite Qplus_opp_r. symmetry. rewrite H. reflexivity.
  - rewrite H. apply Qplus_opp_r.
Qed.

Lemma checkRefundStatus_remainingBalance_witness :
  find (fun q => String.eqb (invoiceNumber q) "INV-2024-004")
       (payments (db_with_payment refunded_payment)) = Some refunded_payment /\
  exists rs,
    checkRefundStatus "INV-2024-004" (db_with_payment refunded_payment)
      = ([], inl (CRFound rs), db_with_payment refunded_payment) /\
    rs_hasRefund rs = true.
Proof.
  split; [reflexivity|].
  destruct (checkRefundStatus_remainingBalance "INV-2024-004"
              (db_with_payment refunded_payment) refunded_payment eq_refl)
    as [rs [Hrun [Hhas _]]].
  exists rs. split; [exact Hrun|]. apply Hhas. left. reflexivity.
Defined.

(** Claim C8 fails on the code as written: the requested amount 0 exceeds
    the amount -5 of a completed payment, yet [amount || payment.amount]
    treats the explicit 0 as unspecified (0 is falsy), so the refund amount
    becomes the full -5, the [refundAmount > payment.amount] check passes,
    and the request succeeds with a full refund of -5 instead of failing. *)
Lemma requestRefund_zero_amount_counterexample :
  num_gt 0 (-5) = true /\
  match requestRefund "INV-2024-009" (Some 0%Q) "Duplicate charge" 0
          (db_with_payment negative_payment) with
  | (_, inl (RRSuccess req), _) =>
      rr_refundAmount req = (-5)%Q /\ rr_originalAmount req = (-5)%Q
  | _ => False
  end.
Proof. vm_compute. split; [reflexivity|split; reflexivity]. Qed.

(** [requestRefund] yields nothing and leaves the store unchanged; when the
    payment exists but is not [completed] the outcome is a failure; when the
    refund amount (the requested amount, or the full payment amount when none
    or 0 is requested) exceeds the payment amount the outcome is a failure,
    in particular whenever a nonzero requested amount exceeds it. *)
Theorem requestRefund_failures_no_mutation inv amt reason now db :
  exists r,
    requestRefund inv amt reason now db = ([], inl r, db) /\
    (forall p, find (fun q => String.eqb (invoiceNumber q) inv) (payments db) = Some p ->
       pstatus p <> completed -> rr_success r = false) /\
    (forall p, find (fun q => String.eqb (invoiceNumber q) inv) (payments db) = Some p ->
       num_gt (num_or amt (amount p)) (amount p) = true -> rr_success r = false) /\
    (forall p a, find (fun q => String.eqb (invoiceNumber q) inv) (payments db) = Some p ->
       amt = Some a -> num_truthy a = true -> num_gt a (amount p) = true ->
       rr_success r = false).
Proof.
  unfold requestRefund, bind. rewrite findPayment_run.
  destruct (find (fun q => String.eqb (invoiceNumber q) inv) (payments db)) as [p|] eqn:Hf.
  - assert (Hst : status_eqb (pstatus p) completed = true <-> pstatus p = completed)
      by (destruct (pstatus p); split; intros H; discriminate H || reflexivity).
    destruct (status_eqb (pstatus p) completed) eqn:Hc; cbn.
    + destruct (num_gt (num_or amt (amount p)) (amount p)) eqn:Hgt; cbn.
      * eexists; split; [reflexivity|]. repeat split; reflexivity.
      * eexists; split; [reflexivity|].
        split; [intros q Hq Hn; inversion Hq; subst; exfalso; apply Hn, Hst; reflexivity|].
        split; [intros q Hq H; inversion Hq; subst; congruence|].
        intros q a Hq Ha Ht H; inversion Hq; subst.
        unfold num_or in Hgt. rewrite Ht in Hgt. congruence.
    + eexists; split; [reflexivity|]. repeat split; reflexivity.
  - eexists; split; [reflexivity|].
    repeat split; intros; discriminate.
Qed.

(** ** The responder loop *)

Definition plain_chunk (c : Chunk) : Prop :=
  is_done c = false /\ is_routing c = false /\ is_error c = false.

Lemma stream_loop_spec parts acc :
  fst (stream_loop parts acc) = fst (stream_loop parts "") /\
  snd (stream_loop parts acc) = acc ++ deltas (fst (stream_loop parts acc)) /\
  Forall plain_chunk (fst (stream_loop parts acc)).
Proof.
  revert acc. induction parts as [|p ps IH]; intros acc; cbn.
  - rewrite str_app_nil_r. repeat split; auto.
  - destruct p; cbn; try apply IH.
    + destruct (IH acc) as [E1 [E2 E3]]. destruct (IH "") as [F1 [F2 F3]].
      destruct (stream_loop ps acc) as [cs ft], (stream_loop ps "") as [cs' ft'].
      cbn in *. subst. repeat split; auto. constructor; [repeat split|]; auto.
    + destruct (IH acc) as [E1 [E2 E3]]. destruct (IH "") as [F1 [F2 F3]].
      destruct (stream_loop ps acc) as [cs ft], (stream_loop ps "") as [cs' ft'].
      cbn in *. subst. repeat split; auto. constructor; [repeat split|]; auto.
    + destruct (IH (acc ++ textDelta)) as [E1 [E2 E3]].
      destruct (IH textDelta) as [F1 [F2 F3]]. destruct (IH "") as [G1 _].
      destruct (stream_loop ps (acc ++ textDelta)) as [cs ft].
      destruct (stream_loop ps textDelta) as [cs' ft'].
      cbn in *. subst. repeat split; auto.
      * rewrite str_app_assoc. reflexivity.
      * constructor; [repeat split|]; auto.
Qed.

(** Claim C5: in every run of [BaseAgent.streamResponse] there is at most one
    [done] chunk; it is the last chunk, and its [fullText] is the concatenation
    of the [delta] fields of the [text_delta] chunks before it, in order. A
    run whose full stream ends normally does end with such a [done] chunk. *)
Theorem streamResponse_fullText_is_deltas parts ending toolCalls :
  let out := fst (streamResponse (parts, ending) toolCalls) in
  (List.length (filter is_done out) <= 1)%nat /\
  (forall pre ft tcs post,
     out = (pre ++ CDone (AgentDone ft tcs) :: post)%list ->
     post = [] /\ deltas pre = ft) /\
  (ending = None ->
     exists pre ft, out = (pre ++ [CDone (AgentDone ft toolCalls)])%list).
Proof.
  cbn. destruct (stream_loop_spec parts "") as [_ [Hft Hplain]].
  destruct (stream_loop parts "") as [cs ft] eqn:E. cbn in Hft, Hplain.
  assert (Hnd : Forall (fun c => is_done c = false) cs).
  { eapply Forall_impl; [|exact Hplain]. intros c [H _]. exact H. }
  assert (Hnd' : Forall (fun c => ~ is_done c = true) cs).
  { eapply Forall_impl; [|exact Hnd]. intros c H. congruence. }
  destruct ending as [e|]; cbn.
  - rewrite (filter_none _ _ Hnd). split; [auto|]. split.
    + intros pre ft' tcs post Heq.
      assert (Hin := in_app_cons pre post (CDone (AgentDone ft' tcs))).
      rewrite <- Heq in Hin. rewrite Forall_forall in Hnd.
      specialize (Hnd _ Hin). discriminate.
    + intros H; discriminate.
  - rewrite filter_app, (filter_none _ _ Hnd). cbn. split; [auto|]. split.
    + intros pre ft' tcs post Heq.
      destruct (app_cons_last_inv (fun c => is_done c = true) pre post cs
                  (CDone (AgentDone ft' tcs)) _
                  Hnd' eq_refl (eq_sym Heq)) as [-> [Hd ->]].
      inversion Hd; subst; auto.
    + intros _. eauto.
Qed.

(** ** The delegator *)

(** What [processMessage] yields after its routing and second thinking chunk:
    the responder's chunks, and an [error] chunk when the responder throws. *)
Definition responder_tail (llm : LLM) (agent : BaseAgent) (ctx : AgentContext)
  : list Chunk :=
  let '(cs, ending) := agent_run llm agent ctx in
  match ending with
  | None => cs
  | Some e => (cs ++ [CError (exn_message e "An unexpected error occurred")])%list
  end.

Lemma processMessage_shape llm ctx :
  processMessage llm ctx =
  CThinking "Analyzing your request..." None ::
  match fst (run_prog llm (route ctx)) with
  | inr e => [CError (exn_message e "An unexpected error occurred")]
  | inl (agent, routing) =>
      CRouting (agent_type agent) (agent_name agent) (rt_reasoning routing)
               (rt_confidence routing)
      :: CThinking ("Connecting you with " ++ agent_name agent ++ "...") None
      :: responder_tail llm agent ctx
  end.
Proof.
  unfold processMessage, responder_tail.
  destruct (fst (run_prog llm (route ctx))) as [[agent routing]|e]; reflexivity.
Qed.

Lemma streamResponse_no_routing stream toolCalls :
  Forall (fun c => is_routing c = false) (fst (streamResponse stream toolCalls)).
Proof.
  destruct stream as [parts ending]. unfold streamResponse.
  destruct (stream_loop_spec parts "") as [_ [_ Hplain]].
  destruct (stream_loop parts "") as [cs ft]. cbn in Hplain.
  assert (H : Forall (fun c => is_routing c = false) cs).
  { eapply Forall_impl; [|exact Hplain]. intros c [_ [H _]]. exact H. }
  destruct ending; cbn; [exact H|].
  apply Forall_app. split; [exact H|]. repeat constructor.
Qed.

Lemma responder_tail_no_routing llm agent ctx :
  Forall (fun c => is_routing c = false) (responder_tail llm agent ctx).
Proof.
  unfold responder_tail, agent_run.
  pose proof (streamResponse_no_routing (fullStream llm (agent_type agent) ctx)
                (stepToolCalls llm (agent_type agent) ctx)) as H.
  destruct (streamResponse _ _) as [cs [e|]]; cbn in H; [|exact H].
  apply Forall_app. split; [exact H|]. repeat constructor.
Qed.

Lemma routing_not_in {c : Chunk} {l : list Chunk} :
  Forall (fun x => is_routing x = false) l -> is_routing c = true -> ~ In c l.
Proof.
  intros Hl Hc Hin. rewrite Forall_forall in Hl. specialize (Hl _ Hin). congruence.
Qed.

(** Claim C4: every event sequence of [RouterAgent.processMessage] contains
    at most one [routing] chunk, and no [tool_call] or [text_delta] chunk
    comes before it. *)
Theorem processMessage_single_routing_first llm ctx :
  let out := processMessage llm ctx in
  (List.length (filter is_routing out) <= 1)%nat /\
  (forall pre c post, out = (pre ++ c :: post)%list -> is_routing c = true ->
     Forall (fun x => is_tool_call_or_text x = false) pre).
Proof.
  cbn zeta. rewrite processMessage_shape.
  destruct (fst (run_prog llm (route ctx))) as [[agent routing]|e].
  - pose proof (responder_tail_no_routing llm agent ctx) as Ht.
    split.
    + cbn. rewrite (filter_none _ _ Ht). cbn. lia.
    + intros pre c post Heq Hc.
      destruct pre as [|a [|b pre]]; cbn in Heq; inversion Heq; subst.
      * discriminate Hc.
      * repeat constructor.
      * exfalso. destruct pre as [|d pre]; cbn in H2; inversion H2; subst.
        -- discriminate Hc.
        -- apply (routing_not_in Ht Hc). rewrite H1. apply in_app_cons.
  - split.
    + cbn. lia.
    + intros pre c post Heq Hc.
      destruct pre as [|a [|b pre]]; cbn in Heq; inversion Heq; subst.
      * discriminate Hc.
      * discriminate Hc.
      * destruct pre; discriminate.
Qed.

(** Claim C6: when no message of the history has the user role (in particular
    when the history is empty), [RouterAgent.route] sends no request to the
    text-generation capability and returns the support responder with
    confidence 1 and the fixed rationale. *)
Theorem route_no_user_message llm ctx :
  Forall (fun m => cm_role m <> user) (ctx_messages ctx) ->
  run_prog llm (route ctx) =
    (inl (supportAgent,
          {| rt_agent := support; rt_confidence := 1;
             rt_reasoning := "No user message found, defaulting to support" |}), []).
Proof.
  intros H. unfold route, last_user_message.
  rewrite find_none_forall; [reflexivity|].
  apply Forall_rev. eapply Forall_impl; [|exact H].
  intros m Hm. destruct (cm_role m) eqn:E; [congruence|reflexivity|reflexivity].
Qed.

Lemma route_no_user_message_witness :
  Forall (fun m => cm_role m <> user) [mkCoreMessage assistant "Welcome!"] /\
  run_prog llm_ok (route (mkAgentContext "user_demo" 0 [mkCoreMessage assistant "Welcome!"])) =
    (inl (supportAgent,
          {| rt_agent := support; rt_confidence := 1;
             rt_reasoning := "No user message found, defaulting to support" |}), []).
Proof.
  assert (H : Forall (fun m => cm_role m <> user) [mkCoreMessage assistant "Welcome!"])
    by (repeat constructor; discriminate).
  split; [exact H|].
  exact (route_no_user_message llm_ok
           (mkAgentContext "user_demo" 0 [mkCoreMessage assistant "Welcome!"]) H).
Defined.

(** Claim C7: when the classification call returns but its first tool call is
    missing or is not the [route] tool, [processMessage] raises nothing: after
    its first thinking chunk it yields a [routing] chunk for the support
    responder with confidence 0.5 and the rationale "Could not determine
    intent, defaulting to support", then runs the support responder. *)
Theorem processMessage_malformed_routing llm ctx last res :
  last_user_message (ctx_messages ctx) = Some last ->
  generateText llm (router_request ctx last) = inl res ->
  match hd_error (gen_toolCalls res) with
  | Some toolCall => tc_toolName toolCall <> "route"
  | None => True
  end ->
  processMessage llm ctx =
    CThinking "Analyzing your request..." None
    :: CRouting support "Support Agent"
         "Could not determine intent, defaulting to support" (1#2)
    :: CThinking "Connecting you with Support Agent..." None
    :: responder_tail llm supportAgent ctx.
Proof.
  intros Hlast Hgen Hbad. rewrite processMessage_shape.
  unfold route. rewrite Hlast. cbn [run_prog]. rewrite Hgen.
  destruct (hd_error (gen_toolCalls res)) as [toolCall|].
  - destruct (String.eqb (tc_toolName toolCall) "route") eqn:E.
    + apply String.eqb_eq in E. contradiction.
    + reflexivity.
  - reflexivity.
Qed.

Lemma processMessage_malformed_routing_witness :
  last_user_message [mkCoreMessage user "Where is my money?"]
    = Some (mkCoreMessage user "Where is my money?") /\
  processMessage llm_failing (mkAgentContext "user_demo" 0 [mkCoreMessage user "Where is my money?"]) =
    CThinking "Analyzing your request..." None
    :: CRouting support "Support Agent"
         "Could not determine intent, defaulting to support" (1#2)
    :: CThinking "Connecting you with Support Agent..." None
    :: responder_tail llm_failing supportAgent
         (mkAgentContext "user_demo" 0 [mkCoreMessage user "Where is my money?"]).
Proof.
  split; [reflexivity|].
  apply (processMessage_malformed_routing llm_failing
           (mkAgentContext "user_demo" 0 [mkCoreMessage user "Where is my money?"])
           (mkCoreMessage user "Where is my money?") (mkGenResult [])).
  - reflexivity.
  - reflexivity.
  - exact I.
Defined.

(** ** Conversation store *)

Lemma Forall_firstn {A} (P : A -> Prop) n (l : list A) :
  Forall P l -> Forall P (firstn n l).
Proof.
  intros H. rewrite <- (firstn_skipn n l) in H. apply Forall_app in H. apply H.
Qed.

(** Claim C10: when the conversation has no message, or none of its
    messages has the user role, [generateTitle] returns "New Conversation"
    and leaves the store (titles and write log included) unchanged. *)
Theorem generateTitle_no_user_message cid db :
  Forall (fun m => msg_role m <> user) (conv_messages db cid) ->
  generateTitle cid db = ([], inl "New Conversation", db).
Proof.
  intros H. unfold generateTitle.
  destruct (firstn 2 (conv_messages db cid)) as [|m ms] eqn:E; [reflexivity|].
  rewrite find_none_forall; [reflexivity|].
  rewrite <- E. apply Forall_firstn. eapply Forall_impl; [|exact H].
  intros x Hx. destruct (msg_role x) eqn:Hr; [congruence|reflexivity|reflexivity].
Qed.

Lemma generateTitle_no_user_message_witness :
  Forall (fun m => msg_role m <> user)
    (conv_messages (mkDB [mkConversation 0 "user_demo" None]
                         [mkMessage 1 0 assistant "Hello!" (Some support) None] [] 2 []) 0) /\
  generateTitle 0 (mkDB [mkConversation 0 "user_demo" None]
                        [mkMessage 1 0 assistant "Hello!" (Some support) None] [] 2 [])
    = ([], inl "New Conversation",
       mkDB [mkConversation 0 "user_demo" None]
            [mkMessage 1 0 assistant "Hello!" (Some support) None] [] 2 []).
Proof.
  assert (H : Forall (fun m => msg_role m <> user)
    (conv_messages (mkDB [mkConversation 0 "user_demo" None]
                         [mkMessage 1 0 assistant "Hello!" (Some support) None] [] 2 []) 0))
    by (cbn; repeat constructor; discriminate).
  split; [exact H|]. exact (generateTitle_no_user_message 0 _ H).
Defined.

(** ** The orchestrator *)

Lemma stream_through_run chunks st db :
  stream_through chunks st db = (chunks, inl (fold_left loop_step chunks st), db).
Proof.
  revert st. induction chunks as [|c cs IH]; intros st; [reflexivity|].
  cbn. unfold bind, yield. rewrite IH. reflexivity.
Qed.

Lemma addMessage_inv input db cs m db' :
  addMessage input db = (cs, inl m, db') ->
  cs = [] /\ conv_exists db (cmi_conversationId input) = true /\
  m = {| msg_id := next_id db;
         msg_conversationId := cmi_conversationId input;
         msg_role := cmi_role input;
         msg_content := cmi_content input;
         msg_agentType := cmi_agentType input;
         msg_toolCalls := cmi_toolCalls input |} /\
  conversations db' = conversations db /\
  messages db' = (messages db ++ [m])%list /\
  writes db' = (writes db ++ [WAddMessage (cmi_conversationId input)
                                (cmi_role input) (cmi_content input)])%list.
Proof.
  unfold addMessage. destruct (conv_exists db (cmi_conversationId input)) eqn:E;
    intros H; inversion H; subst; cbn; auto 7.
Qed.

Lemma conv_exists_same db db' c :
  conversations db' = conversations db -> conv_exists db' c = conv_exists db c.
Proof. unfold conv_exists. intros ->. reflexivity. Qed.

Lemma conv_messages_same db db' c :
  messages db' = messages db -> conv_messages db' c = conv_messages db c.
Proof. unfold conv_messages. intros ->. reflexivity. Qed.

Lemma conv_messages_snoc db db' c m :
  messages db' = (messages db ++ [m])%list -> msg_conversationId m = c ->
  conv_messages db' c = (conv_messages db c ++ [m])%list.
Proof.
  unfold conv_messages. intros -> Hm. rewrite filter_app. cbn.
  rewrite Hm, Nat.eqb_refl. reflexivity.
Qed.

Lemma history_length_one (l : list Message) (m : Message) :
  List.length (firstn 50 (l ++ [m])) = Nat.min 50 (S (List.length l)).
Proof.
  rewrite length_firstn, length_app. change (List.length [m]) with 1%nat.
  rewrite Nat.add_1_r. reflexivity.
Qed.

(** The first step of [streamChat]: the conversation id it works on. *)
Lemma streamChat_conversation_step input db cs c db1 :
  (match in_conversationId input with
   | Some cid => ret cid
   | None =>
       conversation <- createConversation (in_userId input) ;;
       yield (CThinking "Starting new conversation..." (Some (conv_id conversation))) ;;
       ret (conv_id conversation)
   end) db = (cs, inl c, db1) ->
  c = match in_conversationId input with Some c => c | None => next_id db end /\
  messages db1 = messages db /\
  exists w, writes db1 = (writes db ++ w)%list /\ filter is_title_write w = [].
Proof.
  destruct (in_conversationId input) as [cid|]; intros H.
  - inversion H; subst. split; [reflexivity|]. split; [reflexivity|].
    exists []. rewrite app_nil_r. auto.
  - cbn in H. inversion H; subst. split; [reflexivity|]. split; [reflexivity|].
    eexists; split; [reflexivity|]. reflexivity.
Qed.

(** Claim C9: in a [streamChat] run that completes, a title is written (once)
    exactly when the history read after saving the user message has length 1,
    i.e. the conversation had no earlier message; the title written is the
    message itself when it has at most 50 characters, and otherwise its first
    47 characters followed by "...". *)
Theorem streamChat_title_first_exchange llm input db cs db' :
  streamChat llm input db = (cs, inl tt, db') ->
  let cid := match in_conversationId input with Some c => c | None => next_id db end in
  let msg := in_message input in
  exists new,
    writes db' = (writes db ++ new)%list /\
    (Nat.min 50 (S (List.length (conv_messages db cid))) = 1%nat ->
       exists t, filter is_title_write new = [WUpdateTitle cid t] /\
         ((String.length msg <= 50)%nat -> t = msg) /\
         ((50 < String.length msg)%nat -> t = substring 0 47 msg ++ "...")) /\
    (Nat.min 50 (S (List.length (conv_messages db cid))) <> 1%nat ->
       filter is_title_write new = []).
Proof.
  intros H cid msg. unfold streamChat in H.
  apply bind_inl_inv in H as (cs1 & c0 & db1 & cs2 & H1 & H & _).
  apply streamChat_conversation_step in H1 as (Hc0 & Hm1 & w1 & Hw1 & Hf1).
  fold cid in Hc0. subst c0.
  (* the user message *)
  apply bind_inl_inv in H as (cs3 & um & db2 & cs4 & H2 & H & _).
  apply addMessage_inv in H2 as (_ & Hex1 & Hum & Hconv2 & Hm2 & Hw2).
  cbn in Hex1, Hum, Hw2.
  (* the history *)
  apply bind_inl_inv in H as (cs5 & history & db3 & cs6 & H3 & H & _).
  assert (E3 : getMessages cid db2 = ([], inl (firstn 50 (conv_messages db2 cid)), db2))
    by reflexivity.
  rewrite E3 in H3. clear E3.
  assert (Ehist : firstn 50 (conv_messages db2 cid) = history) by congruence.
  assert (db3 = db2) as -> by congruence. clear H3.
  (* the delegator's chunks *)
  apply bind_inl_inv in H as (cs7 & st & db4 & cs8 & H4 & H & _).
  rewrite stream_through_run in H4. injection H4 as <- <- <-.
  (* the assistant message *)
  apply bind_inl_inv in H as (cs9 & am & db5 & cs10 & H5 & H & _).
  apply addMessage_inv in H5 as (_ & _ & Ham & Hconv5 & Hm5 & Hw5).
  cbn in Ham, Hw5.
  (* the title and the final chunk *)
  apply bind_inl_inv in H as (cs11 & u & db6 & cs12 & H6 & H7 & _).
  injection H7 as <- <-.
  assert (Hcm2 : conv_messages db2 cid = (conv_messages db cid ++ [um])%list).
  { rewrite (conv_messages_snoc db1 db2 cid um Hm2) by (subst um; reflexivity).
    rewrite (conv_messages_same db db1 cid Hm1). reflexivity. }
  assert (Hcm5 : conv_messages db5 cid = (conv_messages db cid ++ [um; am])%list).
  { rewrite (conv_messages_snoc db2 db5 cid am Hm5) by (subst am; reflexivity).
    rewrite Hcm2, <- app_assoc. reflexivity. }
  assert (Hex5 : conv_exists db5 cid = true).
  { rewrite (conv_exists_same db1 db5); [exact Hex1|]. congruence. }
  rewrite <- Ehist, Hcm2, history_length_one in H6.
  assert (Hw6 : writes db5 = (writes db ++ w1 ++ [WAddMessage cid user (in_message input)]
                               ++ [WAddMessage cid assistant (msg_content am)])%list).
  { rewrite Hw5, Hw2, Hw1, Ham, <- !app_assoc. reflexivity. }
  destruct (Nat.eqb (Nat.min 50 (S (List.length (conv_messages db cid)))) 1) eqn:Hlen.
  - apply Nat.eqb_eq in Hlen.
    assert (Hnil : conv_messages db cid = []).
    { destruct (conv_messages db cid); [reflexivity|]. cbn in Hlen. discriminate. }
    apply bind_inl_inv in H6 as (cs13 & t & db7 & cs14 & H8 & H9 & _).
    assert (db6 = db7) as -> by (unfold ret in H9; congruence). clear H9.
    unfold generateTitle in H8. rewrite Hcm5, Hnil in H8. cbn [app firstn] in H8.
    assert (Hfind : find (fun m => role_eqb (msg_role m) user) [um; am] = Some um)
      by (rewrite Hum; reflexivity).
    rewrite Hfind in H8. rewrite Hum in H8. cbn [msg_content] in H8.
    apply bind_inl_inv in H8 as (cs15 & oc & db8 & cs16 & H10 & H11 & _).
    assert (db8 = db7) as <- by (unfold ret in H11; congruence). clear H11.
    unfold updateConversation in H10. rewrite Hex5 in H10.
    assert (Hw8 : writes db8 = (writes db5 ++ [WUpdateTitle cid (title_of (in_message input))])%list)
      by (apply (f_equal (fun r => writes (snd r))) in H10; exact (eq_sym H10)).
    eexists; split.
    + rewrite Hw8, Hw6, <- !app_assoc. reflexivity.
    + split.
      * intros _. eexists; split.
        -- rewrite !filter_app, Hf1. reflexivity.
        -- unfold title_of. subst msg. split; intros Hl.
           ++ destruct (Nat.ltb 50 (String.length (in_message input))) eqn:E;
                [apply Nat.ltb_lt in E; lia|reflexivity].
           ++ apply Nat.ltb_lt in Hl. rewrite Hl. reflexivity.
      * intros Hne. contradiction.
  - assert (db6 = db5) as -> by (unfold ret in H6; congruence).
    eexists; split.
    + rewrite Hw6. reflexivity.
    + split.
      * intros Heq. apply Nat.eqb_neq in Hlen. contradiction.
      * intros _. rewrite !filter_app, Hf1. reflexivity.
Qed.

Lemma streamChat_title_first_exchange_witness :
  snd (fst (streamChat llm_ok input_new empty_db)) = inl tt /\
  exists new,
    writes (snd (streamChat llm_ok input_new empty_db)) = (writes empty_db ++ new)%list /\
    filter is_title_write new = [WUpdateTitle 0 "hi"].
Proof.
  split; [reflexivity|].
  destruct (streamChat_title_first_exchange llm_ok input_new empty_db _ _ eq_refl)
    as [new [Hw [Hyes _]]].
  exists new. split; [exact Hw|].
  destruct (Hyes eq_refl) as [t [Ht [Hshort _]]].
  rewrite Ht. rewrite Hshort by (cbn; lia). reflexivity.
Defined.

(** Claim C1 (the code departs from it): [streamChat] yields every chunk of
    the delegator, its [done] chunk included, and then its own [done] chunk.
    A run whose responder completes yields two [done] chunks, the first with
    the responder's raw [{ fullText, toolCalls }] data; a run whose responder
    throws yields an [error] chunk followed by a [done] chunk. *)
Theorem streamChat_forwards_delegator_done :
  (let '(cs, r, _) := streamChat llm_ok input_new empty_db in
   r = inl tt /\ List.length (filter is_done cs) = 2%nat /\
   In (CDone (AgentDone "Hello" [mkToolRecord "checkRefundStatus" (Some "{}") (Some "{}")])) cs /\
   List.last cs (CThinking "" None) = CDone (ChatDone 0 2 billing "Hello")) /\
  (let '(cs, r, _) := streamChat llm_failing input_new empty_db in
   r = inl tt /\ filter (fun c => is_done c || is_error c) cs
                 = [CError "Stream interrupted"; CDone (ChatDone 0 2 support "Hel")]).
Proof. vm_compute. repeat split; auto 20. Qed.

(** Claim C2 (the code departs from it): when the responder throws,
    [processMessage] turns the exception into an [error] chunk and
    [streamChat] carries on: it saves an assistant message with the partial
    text and, on a new conversation, writes a title. *)
Theorem streamChat_error_still_persists :
  let '(cs, r, db') := streamChat llm_failing input_new empty_db in
  In (CError "Stream interrupted") cs /\ r = inl tt /\
  writes db' = [WCreateConversation 0; WAddMessage 0 user "hi";
                WAddMessage 0 assistant "Hel"; WUpdateTitle 0 "hi"].
Proof. vm_compute. repeat split; auto 20. Qed.

(* ------------------------------------------------------------------------ *)
(** ** Further generic lemmas *)

Lemma bind_inr_inv {A B} (m : M A) (k : A -> M B) db cs e db'' :
  bind m k db = (cs, inr e, db'') ->
  m db = (cs, inr e, db'') \/
  exists cs1 a db1 cs2,
    m db = (cs1, inl a, db1) /\ k a db1 = (cs2, inr e, db'') /\ cs = (cs1 ++ cs2)%list.
Proof.
  unfold bind. destruct (m db) as [[cs1 [a|e1]] db1].
  - destruct (k a db1) as [[cs2 r] db2] eqn:Ek. intros H; inversion H; subst.
    right. exists cs1, a, db1, cs2. auto.
  - intros H; inversion H; subst. left. reflexivity.
Qed.

Lemma deltas_app (l1 l2 : list Chunk) : deltas (l1 ++ l2) = deltas l1 ++ deltas l2.
Proof.
  induction l1 as [|c l1 IH]; [reflexivity|].
  destruct c; cbn; rewrite IH; try reflexivity. apply str_app_assoc.
Qed.

Lemma find_app {A} (f : A -> bool) (l1 l2 : list A) :
  find f (l1 ++ l2) = match find f l1 with Some x => Some x | None => find f l2 end.
Proof. induction l1 as [|x l1 IH]; cbn; [reflexivity|]. destruct (f x); auto. Qed.

Lemma fold_plain cs st :
  Forall plain_chunk cs ->
  ls_fullResponse (fold_left loop_step cs st) = ls_fullResponse st ++ deltas cs /\
  ls_agentType (fold_left loop_step cs st) = ls_agentType st.
Proof.
  revert st. induction cs as [|c cs IH]; intros st H; cbn.
  - rewrite str_app_nil_r. auto.
  - inversion H as [|? ? [Hd [Hr He]] Hcs]; subst.
    destruct (IH (loop_step st c) Hcs) as [E1 E2]. rewrite E1, E2.
    destruct c; cbn in Hd, Hr, He |- *; try discriminate; auto.
    rewrite str_app_assoc. auto.
Qed.

(** The loop of [streamChat] over the delegator's chunks: the accumulated
    reply is the concatenation of the text deltas, the agent type the one of
    the routing chunk. *)
Lemma processMessage_fold llm ctx :
  let st := fold_left loop_step (processMessage llm ctx) (mkLoopState "" support []) in
  ls_fullResponse st = deltas (processMessage llm ctx) /\
  ls_agentType st = routed_agent (processMessage llm ctx).
Proof.
  cbv zeta. rewrite processMessage_shape.
  destruct (fst (run_prog llm (route ctx))) as [[agent routing]|e]; [|split; reflexivity].
  unfold responder_tail, agent_run, streamResponse.
  destruct (fullStream llm (agent_type agent) ctx) as [parts ending].
  destruct (stream_loop_spec parts "") as [_ [Hft Hplain]].
  destruct (stream_loop parts "") as [cs ft]. cbn [fst snd] in Hft, Hplain.
  change ("" ++ deltas cs) with (deltas cs) in Hft.
  unfold routed_agent. cbn [find is_routing].
  destruct ending as [e|].
  - cbn [fold_left]. rewrite fold_left_app.
    destruct (fold_plain cs (loop_step (loop_step (loop_step (mkLoopState "" support [])
               (CThinking "Analyzing your request..." None))
               (CRouting (agent_type agent) (agent_name agent) (rt_reasoning routing)
                  (rt_confidence routing)))
               (CThinking ("Connecting you with " ++ agent_name agent ++ "...") None))
               Hplain) as [E1 E2].
    cbn [fold_left loop_step]. cbn in E1, E2 |- *. rewrite E1, E2.
    rewrite deltas_app. cbn. rewrite str_app_nil_r. auto.
  - cbn [fold_left]. rewrite fold_left_app.
    destruct (fold_plain cs (loop_step (loop_step (loop_step (mkLoopState "" support [])
               (CThinking "Analyzing your request..." None))
               (CRouting (agent_type agent) (agent_name agent) (rt_reasoning routing)
                  (rt_confidence routing)))
               (CThinking ("Connecting you with " ++ agent_name agent ++ "...") None))
               Hplain) as [E1 E2].
    cbn [fold_left loop_step]. cbn in E1, E2 |- *. rewrite E1, E2.
    rewrite deltas_app. cbn. rewrite str_app_nil_r.
    destruct (String.eqb ft "") eqn:Ef; cbn.
    + apply String.eqb_eq in Ef. subst ft. auto.
    + subst ft. auto.
Qed.

Lemma responder_tail_cases llm agent ctx :
  exists cs t,
    responder_tail llm agent ctx = (cs ++ [t])%list /\
    Forall plain_chunk cs /\ (is_done t || is_error t) = true.
Proof.
  unfold responder_tail, agent_run, streamResponse.
  destruct (fullStream llm (agent_type agent) ctx) as [parts ending].
  destruct (stream_loop_spec parts "") as [_ [_ Hplain]].
  destruct (stream_loop parts "") as [cs ft]. cbn [fst] in Hplain.
  destruct ending as [e|]; eexists cs, _; (split; [reflexivity|]); auto.
Qed.

Lemma plain_not_terminal cs :
  Forall plain_chunk cs -> filter (fun c => is_done c || is_error c) cs = [].
Proof.
  intros H. apply filter_none. eapply Forall_impl; [|exact H].
  intros c [Hd [_ He]]. rewrite Hd, He. reflexivity.
Qed.

Lemma last_user_message_split pre last post :
  cm_role last = user -> Forall (fun m => cm_role m <> user) post ->
  last_user_message (pre ++ last :: post) = Some last.
Proof.
  intros Hl Hpost. unfold last_user_message.
  rewrite rev_app_distr. cbn [rev]. rewrite <- app_assoc, find_app.
  rewrite find_none_forall.
  - cbn. rewrite Hl. reflexivity.
  - apply Forall_rev. eapply Forall_impl; [|exact Hpost].
    intros m Hm. destruct (cm_role m) eqn:E; [congruence|reflexivity|reflexivity].
Qed.

(** ** The delegator, further properties *)

(** Every event sequence of [RouterAgent.processMessage] holds exactly one
    terminal chunk, a [done] or an [error] chunk, and ends with it: whether
    classification throws, the responder throws or it completes. *)
Theorem processMessage_one_terminal llm ctx :
  let out := processMessage llm ctx in
  List.length (filter (fun c => is_done c || is_error c) out) = 1%nat /\
  exists pre t, out = (pre ++ [t])%list /\ (is_done t || is_error t) = true.
Proof.
  cbv zeta. rewrite processMessage_shape.
  destruct (fst (run_prog llm (route ctx))) as [[agent routing]|e].
  - destruct (responder_tail_cases llm agent ctx) as (cs & t & Ht & Hplain & Hterm).
    rewrite Ht. split.
    + cbn [filter is_done is_error orb].
      rewrite filter_app, (plain_not_terminal _ Hplain). cbn. rewrite Hterm. reflexivity.
    + exists (CThinking "Analyzing your request..." None
              :: CRouting (agent_type agent) (agent_name agent) (rt_reasoning routing)
                   (rt_confidence routing)
              :: CThinking ("Connecting you with " ++ agent_name agent ++ "...") None
              :: cs), t.
      split; [reflexivity|exact Hterm].
  - split; [reflexivity|].
    exists [CThinking "Analyzing your request..." None], (CError (exn_message e "An unexpected error occurred")).
    split; reflexivity.
Qed.

(** When the classification call's first tool call is the [route] tool,
    [processMessage] follows its decision: the routing chunk names the
    decided responder with the model's rationale and confidence, and that
    responder runs (the [|| this.supportAgent] fallback never applies, every
    agent type having a responder). *)
Theorem processMessage_follows_route_decision llm ctx last res routing rest :
  last_user_message (ctx_messages ctx) = Some last ->
  generateText llm (router_request ctx last) = inl res ->
  gen_toolCalls res = mkLlmToolCall "route" routing :: rest ->
  let agent := match rt_agent routing with
               | support => supportAgent
               | order => orderAgent
               | billing => billingAgent
               end in
  agent_type agent = rt_agent routing /\
  processMessage llm ctx =
    CThinking "Analyzing your request..." None
    :: CRouting (rt_agent routing) (agent_name agent) (rt_reasoning routing)
         (rt_confidence routing)
    :: CThinking ("Connecting you with " ++ agent_name agent ++ "...") None
    :: responder_tail llm agent ctx.
Proof.
  intros Hlast Hgen Htc agent. split; [subst agent; destruct (rt_agent routing); reflexivity|].
  rewrite processMessage_shape. unfold route. rewrite Hlast. cbn [run_prog]. rewrite Hgen, Htc.
  cbn. subst agent. destruct (rt_agent routing); reflexivity.
Qed.

Lemma processMessage_follows_route_decision_witness :
  last_user_message [mkCoreMessage user "I want a refund"]
    = Some (mkCoreMessage user "I want a refund") /\
  processMessage llm_ok (mkAgentContext "user_demo" 0 [mkCoreMessage user "I want a refund"]) =
    CThinking "Analyzing your request..." None
    :: CRouting billing "Billing Agent" "Refund question" (9#10)
    :: CThinking "Connecting you with Billing Agent..." None
    :: responder_tail llm_ok billingAgent
         (mkAgentContext "user_demo" 0 [mkCoreMessage user "I want a refund"]).
Proof.
  split; [reflexivity|].
  exact (proj2 (processMessage_follows_route_decision llm_ok
           (mkAgentContext "user_demo" 0 [mkCoreMessage user "I want a refund"])
           (mkCoreMessage user "I want a refund")
           (mkGenResult [mkLlmToolCall "route" (mkRoutingResult billing (9#10) "Refund question")])
           (mkRoutingResult billing (9#10) "Refund question") [] eq_refl eq_refl eq_refl)).
Defined.

(** [RouterAgent.route] classifies the most recent user message: whatever
    follows it in the history (assistant or system messages), it sends
    exactly one request to the text-generation capability, the one quoting
    that message, whatever the capability answers or throws. *)
Theorem route_classifies_last_user_message llm ctx pre last post :
  ctx_messages ctx = (pre ++ last :: post)%list ->
  cm_role last = user ->
  Forall (fun m => cm_role m <> user) post ->
  snd (run_prog llm (route ctx)) = [router_request ctx last].
Proof.
  intros Hm Hl Hpost. unfold route. rewrite Hm, (last_user_message_split pre last post Hl Hpost).
  cbn [run_prog].
  destruct (generateText llm (router_request ctx last)) as [res|e]; [|reflexivity].
  destruct (hd_error (gen_toolCalls res)) as [tc|]; [destruct (String.eqb (tc_toolName tc) "route")|];
    reflexivity.
Qed.

Lemma route_classifies_last_user_message_witness :
  let ctx := mkAgentContext "user_demo" 0
               [mkCoreMessage user "Where is my order?"; mkCoreMessage assistant "Let me check.";
                mkCoreMessage user "Actually, I need a refund"; mkCoreMessage assistant "Sure."] in
  snd (run_prog llm_ok (route ctx))
    = [router_request ctx (mkCoreMessage user "Actually, I need a refund")].
Proof.
  cbv zeta.
  apply (route_classifies_last_user_message llm_ok _
           [mkCoreMessage user "Where is my order?"; mkCoreMessage assistant "Let me check."]
           (mkCoreMessage user "Actually, I need a refund")
           [mkCoreMessage assistant "Sure."]).
  - reflexivity.
  - reflexivity.
  - repeat constructor. discriminate.
Defined.

(** When the classification call throws, [processMessage] yields its first
    thinking chunk and then an [error] chunk with the exception's message:
    no routing chunk, and no responder runs. *)
Theorem processMessage_classification_failure llm ctx last e :
  last_user_message (ctx_messages ctx) = Some last ->
  generateText llm (router_request ctx last) = inr e ->
  processMessage llm ctx =
    [CThinking "Analyzing your request..." None;
     CError (exn_message e "An unexpected error occurred")].
Proof.
  intros Hlast Hgen. rewrite processMessage_shape. unfold route. rewrite Hlast.
  cbn [run_prog]. rewrite Hgen. reflexivity.
Qed.

Lemma processMessage_classification_failure_witness :
  last_user_message [mkCoreMessage user "hi"] = Some (mkCoreMessage user "hi") /\
  processMessage llm_router_down (mkAgentContext "user_demo" 0 [mkCoreMessage user "hi"]) =
    [CThinking "Analyzing your request..." None; CError "Service unavailable"].
Proof.
  split; [reflexivity|].
  exact (processMessage_classification_failure llm_router_down
           (mkAgentContext "user_demo" 0 [mkCoreMessage user "hi"])
           (mkCoreMessage user "hi") (ErrorObj "Service unavailable") eq_refl eq_refl).
Defined.

(** ** The orchestrators, further properties *)

Lemma addMessage_throw_inv input db cs e db' :
  addMessage input db = (cs, inr e, db') ->
  cs = [] /\ db' = db /\ conv_exists db (cmi_conversationId input) = false /\
  e = ErrorObj "Foreign key constraint failed".
Proof.
  unfold addMessage. destruct (conv_exists db (cmi_conversationId input)) eqn:E;
    intros H; inversion H; subst; auto.
Qed.

Lemma generateTitle_inv cid db cs r db' :
  generateTitle cid db = (cs, r, db') ->
  cs = [] /\ (exists t, r = inl t) /\ messages db' = messages db /\
  map conv_id (conversations db') = map conv_id (conversations db).
Proof.
  unfold generateTitle.
  destruct (firstn 2 (conv_messages db cid)) as [|m ms].
  - intros H; inversion H; subst. eauto.
  - destruct (find (fun m0 => role_eqb (msg_role m0) user) (m :: ms)) as [fu|].
    + unfold bind, updateConversation, ret.
      destruct (conv_exists db cid); intros H; inversion H; subst; cbn;
        (split; [reflexivity|]); (split; [eauto|]); (split; [reflexivity|]).
      * rewrite map_map. apply map_ext. intros c. destruct (Nat.eqb (conv_id c) cid); reflexivity.
      * reflexivity.
    + intros H; inversion H; subst. eauto.
Qed.

Lemma title_step_inv (b : bool) cid db cs r db' :
  (if b then generateTitle cid ;; ret tt else ret tt) db = (cs, r, db') ->
  cs = [] /\ r = inl tt /\ messages db' = messages db /\
  map conv_id (conversations db') = map conv_id (conversations db).
Proof.
  destruct b; intros H.
  - unfold bind in H. destruct (generateTitle cid db) as [[cs1 [t|e1]] db1] eqn:E.
    + cbn in H. inversion H; subst.
      destruct (generateTitle_inv _ _ _ _ _ E) as (-> & _ & Hm & Hc). auto.
    + destruct (generateTitle_inv _ _ _ _ _ E) as (_ & [t Ht] & _). discriminate.
  - inversion H; subst. auto.
Qed.

Lemma conv_exists_alt db c :
  conv_exists db c = existsb (fun i => Nat.eqb i c) (map conv_id (conversations db)).
Proof.
  unfold conv_exists. induction (conversations db) as [|x l IH]; cbn; congruence.
Qed.

Lemma conv_exists_ids db db' c :
  map conv_id (conversations db') = map conv_id (conversations db) ->
  conv_exists db' c = conv_exists db c.
Proof. intros H. rewrite !conv_exists_alt, H. reflexivity. Qed.

Lemma streamChat_conversation_outcome input db r cs db1 :
  (match in_conversationId input with
   | Some cid => ret cid
   | None =>
       conversation <- createConversation (in_userId input) ;;
       yield (CThinking "Starting new conversation..." (Some (conv_id conversation))) ;;
       ret (conv_id conversation)
   end) db = (cs, r, db1) ->
  deltas cs = "" /\ find is_routing cs = None /\
  match in_conversationId input with
  | Some cid => r = inl cid /\ cs = [] /\ db1 = db
  | None => r = inl (next_id db) /\ conv_exists db1 (next_id db) = true
  end.
Proof.
  destruct (in_conversationId input) as [cid|]; intros H.
  - inversion H; subst. auto.
  - cbn in H. inversion H; subst. cbn. repeat split.
    unfold conv_exists. cbn. rewrite existsb_app. cbn. rewrite Nat.eqb_refl, orb_true_r.
    reflexivity.
Qed.

Lemma last_snoc {A} (l : list A) (x d : A) : List.last (l ++ [x]) d = x.
Proof. apply last_last. Qed.

(** In a [streamChat] run that completes, the assistant message saved is the
    concatenation of all the text deltas the run yielded (in order), tagged
    with the agent type of the routing chunk (support when there is none);
    the run's last chunk is the orchestrator's [done] chunk, carrying the
    conversation id, the id of that saved message, the same agent type and
    the same text. *)
Theorem streamChat_saved_reply_is_streamed_text llm input db cs db' :
  streamChat llm input db = (cs, inl tt, db') ->
  let cid := match in_conversationId input with Some c => c | None => next_id db end in
  exists mid tcs,
    List.last cs (CThinking "" None) = CDone (ChatDone cid mid (routed_agent cs) (deltas cs)) /\
    In (mkMessage mid cid assistant (deltas cs) (Some (routed_agent cs)) tcs) (messages db').
Proof.
  intros H cid. unfold streamChat in H.
  apply bind_inl_inv in H as (cs1 & c0 & db1 & cs2 & H1 & H & ->).
  apply streamChat_conversation_outcome in H1 as (Hd1 & Hr1 & Hc1).
  assert (c0 = cid) as ->.
  { subst cid. destruct (in_conversationId input); destruct Hc1 as [Hc _]; congruence. }
  clear Hc1.
  apply bind_inl_inv in H as (cs3 & um & db2 & cs4 & H2 & H & ->).
  apply addMessage_inv in H2 as (-> & _ & _ & _ & _ & _).
  apply bind_inl_inv in H as (cs5 & history & db3 & cs6 & H3 & H & ->).
  assert (E3 : getMessages cid db2 = ([], inl (firstn 50 (conv_messages db2 cid)), db2))
    by reflexivity.
  rewrite E3 in H3. clear E3.
  assert (cs5 = []) as -> by congruence.
  assert (db3 = db2) as -> by congruence. clear H3.
  apply bind_inl_inv in H as (cs7 & st & db4 & cs8 & H4 & H & ->).
  remember (processMessage llm _) as pm eqn:Hpm in H4.
  rewrite stream_through_run in H4. injection H4 as <- <- <-.
  assert (Hfold := processMessage_fold llm
                     (mkAgentContext (in_userId input) cid
                        (map (fun m => mkCoreMessage (msg_role m) (msg_content m)) history))).
  rewrite <- Hpm in Hfold. cbv zeta in Hfold. destruct Hfold as [Hfr Hat].
  apply bind_inl_inv in H as (cs9 & am & db5 & cs10 & H5 & H & ->).
  apply addMessage_inv in H5 as (-> & _ & Ham & _ & Hm5 & _).
  apply bind_inl_inv in H as (cs11 & u & db6 & cs12 & H6 & H7 & ->).
  apply title_step_inv in H6 as (-> & _ & Hm6 & _).
  unfold yield in H7. injection H7 as <- <-.
  rewrite Hfr, Hat in Ham |- *.
  assert (Hcs : (cs1 ++ [] ++ [] ++ pm ++ [] ++ [] ++
                 [CDone (ChatDone cid (msg_id am) (routed_agent pm) (deltas pm))])%list
                = ((cs1 ++ pm) ++ [CDone (ChatDone cid (msg_id am) (routed_agent pm) (deltas pm))])%list)
    by (cbn [app]; rewrite <- app_assoc; reflexivity).
  rewrite Hcs.
  assert (Hdel : deltas ((cs1 ++ pm) ++ [CDone (ChatDone cid (msg_id am) (routed_agent pm) (deltas pm))])%list
                 = deltas pm)
    by (rewrite !deltas_app, Hd1; cbn; apply str_app_nil_r).
  assert (Hra : routed_agent ((cs1 ++ pm) ++ [CDone (ChatDone cid (msg_id am) (routed_agent pm) (deltas pm))])%list
                = routed_agent pm).
  { unfold routed_agent. rewrite !find_app, Hr1. cbn.
    destruct (find is_routing pm); reflexivity. }
  rewrite Hdel, Hra.
  exists (msg_id am), (msg_toolCalls am). split; [apply last_snoc|].
  rewrite Hm6, Hm5. apply in_or_app. right. left.
  rewrite Ham. reflexivity.
Qed.

Lemma streamChat_saved_reply_is_streamed_text_witness :
  snd (fst (streamChat llm_ok input_new empty_db)) = inl tt /\
  exists mid tcs,
    In (mkMessage mid 0 assistant "Hello" (Some billing) tcs)
       (messages (snd (streamChat llm_ok input_new empty_db))).
Proof.
  split; [reflexivity|].
  destruct (streamChat_saved_reply_is_streamed_text llm_ok input_new empty_db _ _ eq_refl)
    as (mid & tcs & _ & Hin).
  exists mid, tcs. exact Hin.
Defined.




Lemma chat_conversation_outcome input db r cs db1 :
  (match in_conversationId input with
   | Some cid => ret cid
   | None => conversation <- createConversation (in_userId input) ;; ret (conv_id conversation)
   end) db = (cs, r, db1) ->
  cs = [] /\ messages db1 = messages db /\
  match in_conversationId input with
  | Some cid => r = inl cid /\ db1 = db
  | None => r = inl (next_id db) /\ conv_exists db1 (next_id db) = true /\
            writes db1 = (writes db ++ [WCreateConversation (next_id db)])%list
  end.
Proof.
  destruct (in_conversationId input) as [cid|]; intros H.
  - inversion H; subst. auto.
  - cbn in H. inversion H; subst. cbn. repeat split.
    unfold conv_exists. cbn. rewrite existsb_app. cbn. rewrite Nat.eqb_refl, orb_true_r.
    reflexivity.
Qed.

(** Unlike [streamChat], the non-streaming [ChatService.chat] lets a failure
    of classification or of the responder propagate: a run that throws has
    yielded nothing, and wrote at most the new conversation and the user
    message; no assistant message and no title. *)
Theorem chat_failure_writes_no_reply llm respond input db cs e db' :
  chat llm respond input db = (cs, inr e, db') ->
  cs = [] /\
  exists new,
    writes db' = (writes db ++ new)%list /\
    Forall (fun w => match w with
                     | WCreateConversation _ => True
                     | WAddMessage _ r _ => r = user
                     | WUpdateTitle _ _ => False
                     end) new.
Proof.
  intros H. unfold chat in H.
  apply bind_inr_inv in H as [H1 | (cs1 & c0 & db1 & cs2 & H1 & H & ->)].
  { apply chat_conversation_outcome in H1 as (_ & _ & Hc1).
    destruct (in_conversationId input); destruct Hc1 as [Hc _]; discriminate. }
  apply chat_conversation_outcome in H1 as (-> & _ & Hc1).
  assert (Hw1 : exists w, writes db1 = (writes db ++ w)%list /\
                  Forall (fun w => match w with
                                   | WCreateConversation _ => True
                                   | WAddMessage _ r _ => r = user
                                   | WUpdateTitle _ _ => False
                                   end) w).
  { destruct (in_conversationId input).
    - destruct Hc1 as [_ ->]. exists []. rewrite app_nil_r. auto.
    - destruct Hc1 as (_ & _ & Hw). eexists; split; [exact Hw|]. repeat constructor. }
  clear Hc1. destruct Hw1 as (w & Hw1 & Hf1).
  apply bind_inr_inv in H as [H2 | (cs3 & um & db2 & cs4 & H2 & H & ->)].
  { apply addMessage_throw_inv in H2 as (-> & -> & _). split; [reflexivity|].
    exists w. auto. }
  apply addMessage_inv in H2 as (-> & Hex & _ & Hconv2 & _ & Hw2). cbn in Hex, Hw2.
  assert (Hex2 : conv_exists db2 c0 = true)
    by (rewrite (conv_exists_same db1 db2 c0 Hconv2); exact Hex).
  apply bind_inr_inv in H as [H3 | (cs5 & history & db3 & cs6 & H3 & H & ->)];
    [discriminate H3|].
  assert (cs5 = []) as -> by (unfold getMessages in H3; congruence).
  assert (db3 = db2) as -> by (unfold getMessages in H3; congruence). clear H3.
  apply bind_inr_inv in H as [H4 | (cs7 & result & db4 & cs8 & H4 & H & ->)].
  { unfold lift in H4.
    destruct (router_generateResponse _ _ _) as [x|e1]; [discriminate H4|].
    injection H4 as <- _ ->. split; [reflexivity|].
    exists (w ++ [WAddMessage c0 user (in_message input)])%list.
    split; [rewrite Hw2, Hw1, app_assoc; reflexivity|].
    apply Forall_app. split; [exact Hf1|]. repeat constructor. }
  exfalso. unfold lift in H4.
  destruct (router_generateResponse _ _ _) as [x|e1]; [|discriminate H4].
  unfold ret in H4. injection H4 as _ _ <-.
  destruct result as [[agent routing] response].
  apply bind_inr_inv in H as [H5 | (cs9 & am & db5 & cs10 & H5 & H & _)].
  { apply addMessage_throw_inv in H5 as (_ & _ & Hne & _). cbn in Hne. congruence. }
  apply bind_inr_inv in H as [H6 | (cs11 & v & db6 & cs12 & H6 & H & _)].
  { apply title_step_inv in H6 as (_ & Hr & _). discriminate Hr. }
  discriminate H.
Qed.

Lemma chat_failure_writes_no_reply_witness :
  snd (fst (chat llm_ok respond_down input_new empty_db)) = inr (ErrorObj "Model overloaded") /\
  writes (snd (chat llm_ok respond_down input_new empty_db))
    = [WCreateConversation 0; WAddMessage 0 user "hi"] /\
  exists new,
    writes (snd (chat llm_ok respond_down input_new empty_db)) = (writes empty_db ++ new)%list /\
    Forall (fun w => match w with
                     | WCreateConversation _ => True
                     | WAddMessage _ r _ => r = user
                     | WUpdateTitle _ _ => False
                     end) new.
Proof.
  split; [reflexivity|]. split; [reflexivity|].
  exact (proj2 (chat_failure_writes_no_reply llm_ok respond_down input_new empty_db _
                  (ErrorObj "Model overloaded") _ eq_refl)).
Defined.

(** A completed [ChatService.chat] yields nothing, answers with the text and
    the tools of the responder of the routed agent, and has stored that
    reply as the last message: an assistant message of the conversation,
    tagged with the agent, whose tool calls are [null] when the responder
    called no tool. *)
Theorem chat_success_reply_saved llm respond input db cs r db' :
  chat llm respond input db = (cs, inl r, db') ->
  cs = [] /\
  exists ctx tcs pre,
    ctx_conversationId ctx = cr_conversationId r /\
    respond (cr_agentType r) ctx = inl (cr_response r, tcs) /\
    cr_toolsUsed r = map tr_tool tcs /\
    messages db' =
      (pre ++ [{| msg_id := cr_messageId r;
                  msg_conversationId := cr_conversationId r;
                  msg_role := assistant;
                  msg_content := cr_response r;
                  msg_agentType := Some (cr_agentType r);
                  msg_toolCalls := if Nat.ltb 0 (List.length tcs) then Some tcs else None |}])%list.
Proof.
  intros H. unfold chat in H.
  apply bind_inl_inv in H as (cs1 & c0 & db1 & cs2 & H1 & H & ->).
  apply chat_conversation_outcome in H1 as (-> & _ & _).
  apply bind_inl_inv in H as (cs3 & um & db2 & cs4 & H2 & H & ->).
  apply addMessage_inv in H2 as (-> & _ & _ & _ & _ & _).
  apply bind_inl_inv in H as (cs5 & history & db3 & cs6 & H3 & H & ->).
  assert (cs5 = []) as -> by (unfold getMessages in H3; congruence).
  assert (db3 = db2) as -> by (unfold getMessages in H3; congruence). clear H3.
  apply bind_inl_inv in H as (cs7 & result & db4 & cs8 & H4 & H & ->).
  unfold lift in H4.
  destruct (router_generateResponse llm respond
              (mkAgentContext (in_userId input) c0
                 (map (fun m => mkCoreMessage (msg_role m) (msg_content m)) history)))
    as [x|e1] eqn:Hr; [|discriminate H4].
  unfold ret in H4. injection H4 as <- <- <-.
  destruct x as [[agent routing] response].
  unfold router_generateResponse in Hr.
  destruct (fst (run_prog llm (route _))) as [[a0 routing0]|e0]; [|discriminate Hr].
  unfold agent_generateResponse in Hr.
  destruct (respond (agent_type a0) _) as [[text tcs]|e2] eqn:Hresp; [|discriminate Hr].
  injection Hr as <- _ <-.
  apply bind_inl_inv in H as (cs9 & am & db5 & cs10 & H5 & H & ->).
  apply addMessage_inv in H5 as (-> & _ & Ham & _ & Hm5 & _). cbn in Ham, Hm5.
  apply bind_inl_inv in H as (cs11 & v & db6 & cs12 & H6 & H & ->).
  apply title_step_inv in H6 as (-> & _ & Hm6 & _).
  unfold ret in H. injection H as <- <- <-. cbn.
  split; [reflexivity|].
  exists (mkAgentContext (in_userId input) c0
            (map (fun m => mkCoreMessage (msg_role m) (msg_content m)) history)), tcs,
         (messages db2).
  split; [reflexivity|]. split; [exact Hresp|].
  split; [destruct tcs; reflexivity|].
  rewrite Hm6, Hm5, Ham. reflexivity.
Qed.

Lemma chat_success_reply_saved_witness :
  exists cs r db',
    chat llm_ok respond_ok input_new empty_db = (cs, inl r, db') /\
    cs = [] /\
    exists ctx tcs pre,
      ctx_conversationId ctx = cr_conversationId r /\
      respond_ok (cr_agentType r) ctx = inl (cr_response r, tcs) /\
      cr_toolsUsed r = map tr_tool tcs /\
      messages db' =
        (pre ++ [{| msg_id := cr_messageId r;
                    msg_conversationId := cr_conversationId r;
                    msg_role := assistant;
                    msg_content := cr_response r;
                    msg_agentType := Some (cr_agentType r);
                    msg_toolCalls := if Nat.ltb 0 (List.length tcs) then Some tcs else None |}])%list.
Proof.
  do 3 eexists. split; [vm_compute; reflexivity|].
  apply (chat_success_reply_saved llm_ok respond_ok input_new empty_db).
  vm_compute. reflexivity.
Defined.

(** ** Titles *)

Lemma str_length_app (a b : string) :
  String.length (a ++ b) = (String.length a + String.length b)%nat.
Proof. induction a as [|c a IH]; cbn; [reflexivity|]. now rewrite IH. Qed.

Lemma substring_0_length n s :
  (n <= String.length s)%nat -> String.length (substring 0 n s) = n.
Proof.
  revert s. induction n as [|n IH]; intros s Hn; [destruct s; reflexivity|].
  destruct s as [|c s]; cbn in Hn |- *; [lia|]. f_equal. apply IH. lia.
Qed.

Lemma substring_0_prefix n s : String.prefix (substring 0 n s) s = true.
Proof.
  revert s. induction n as [|n IH]; intros s; [destruct s; reflexivity|].
  destruct s as [|c s]; cbn; [reflexivity|].
  destruct (ascii_dec c c) as [_|Hc]; [apply IH|contradiction].
Qed.

Lemma title_of_length s : (String.length (title_of s) <= 50)%nat.
Proof.
  unfold title_of. destruct (Nat.ltb 50 (String.length s)) eqn:E.
  - apply Nat.ltb_lt in E. rewrite str_length_app, substring_0_length by lia. cbn. lia.
  - apply Nat.ltb_ge in E. exact E.
Qed.

(** [generateTitle] never throws and yields nothing. The title it returns
    has at most 50 characters: it is "New Conversation", with the write log
    unchanged, or the title made from a user message among the first two
    messages of the conversation, in which case the one write it appends (if
    the conversation exists) is the update to that very title. A message of
    more than 50 characters gives a 50-character title: a prefix of it
    followed by "...". *)
Theorem generateTitle_title_bounded cid db :
  let '(cs, r, db') := generateTitle cid db in
  cs = [] /\
  exists t, r = inl t /\ (String.length t <= 50)%nat /\
    ((t = "New Conversation" /\ writes db' = writes db) \/
     (exists m, In m (firstn 2 (conv_messages db cid)) /\ msg_role m = user /\
        t = title_of (msg_content m) /\
        (writes db' = writes db \/ writes db' = (writes db ++ [WUpdateTitle cid t])%list) /\
        ((50 < String.length (msg_content m))%nat ->
           String.length t = 50%nat /\
           exists p, t = p ++ "..." /\ String.prefix p (msg_content m) = true))).
Proof.
  assert (Hcut : forall s, (50 < String.length s)%nat -> String.length (title_of s) = 50%nat /\
            exists p, title_of s = p ++ "..." /\ String.prefix p s = true).
  { intros s Hs. unfold title_of. apply Nat.ltb_lt in Hs as Hs'. rewrite Hs'. split.
    - rewrite str_length_app, substring_0_length by lia. reflexivity.
    - eexists; split; [reflexivity|]. apply substring_0_prefix. }
  unfold generateTitle.
  destruct (firstn 2 (conv_messages db cid)) as [|m ms] eqn:Ef.
  - split; [reflexivity|]. exists "New Conversation". cbn. repeat split; auto; lia.
  - destruct (find (fun m0 => role_eqb (msg_role m0) user) (m :: ms)) as [fu|] eqn:Efu.
    + apply find_some in Efu as [Hin Hrole].
      assert (Hu : msg_role fu = user) by (destruct (msg_role fu); [reflexivity|discriminate|discriminate]).
      unfold bind, updateConversation, ret. destruct (conv_exists db cid); cbn.
      * split; [reflexivity|]. eexists; split; [reflexivity|].
        split; [apply title_of_length|]. right. exists fu. auto 6.
      * split; [reflexivity|]. eexists; split; [reflexivity|].
        split; [apply title_of_length|]. right. exists fu. auto 6.
    + split; [reflexivity|]. exists "New Conversation". cbn. repeat split; auto; lia.
Qed.

(** ** Billing tools, further properties *)

Lemma num_gt_refl a : num_gt a a = false.
Proof. unfold num_gt. rewrite (proj2 (Qle_bool_iff a a) (Qle_refl a)). reflexivity. Qed.

(** A refund request without an amount succeeds exactly when
    [checkRefundStatus] reports the payment [refundEligible] (both read the
    same payment and leave the store unchanged), and it then refunds the
    full original amount, not as a partial refund. *)
Theorem full_refund_request_matches_eligibility inv reason now db :
  match checkRefundStatus inv db, requestRefund inv None reason now db with
  | (_, inl (CRNotFound _), _), (_, inl (RRNotFound _), _) => True
  | (_, inl (CRFound rs), _), (_, inl r, _) =>
      rr_success r = rs_refundEligible rs /\
      (forall req, r = RRSuccess req ->
         rr_refundAmount req = rs_originalAmount rs /\ rr_isPartialRefund req = false)
  | _, _ => False
  end.
Proof.
  unfold checkRefundStatus, requestRefund, bind. rewrite !findPayment_run.
  destruct (find (fun p => String.eqb (invoiceNumber p) inv) (payments db)) as [p|];
    cbn; [|exact I].
  destruct (pstatus p); cbn; try (split; [reflexivity|intros req Hr; discriminate Hr]).
  rewrite num_gt_refl. cbn. split; [reflexivity|].
  intros req Hr. injection Hr as <-. cbn. split; [reflexivity|].
  unfold num_lt. apply num_gt_refl.
Qed.

(** A successful [requestRefund] never refunds more than the original
    amount; it refunds the requested amount when that is nonzero and the
    full amount otherwise, and it is marked partial exactly when it refunds
    less than the original amount. *)
Theorem requestRefund_success_bounds inv amt reason now db req :
  snd (fst (requestRefund inv amt reason now db)) = inl (RRSuccess req) ->
  (rr_refundAmount req <= rr_originalAmount req)%Q /\
  (rr_isPartialRefund req = true <-> (rr_refundAmount req < rr_originalAmount req)%Q) /\
  rr_refundAmount req = num_or amt (rr_originalAmount req).
Proof.
  unfold requestRefund, bind. rewrite findPayment_run.
  destruct (find (fun p => String.eqb (invoiceNumber p) inv) (payments db)) as [p|];
    cbn; [|discriminate].
  destruct (negb (status_eqb (pstatus p) completed)); cbn; [discriminate|].
  destruct (num_gt (num_or amt (amount p)) (amount p)) eqn:Hgt; cbn; [discriminate|].
  intros H. injection H as <-. cbn.
  unfold num_gt in Hgt. apply negb_false_iff, Qle_bool_iff in Hgt.
  split; [exact Hgt|]. split; [|reflexivity].
  unfold num_lt, num_gt. split; intros H.
  - apply negb_true_iff in H. apply Qnot_le_lt. intros Hle.
    apply Qle_bool_iff in Hle. congruence.
  - apply negb_true_iff. destruct (Qle_bool (amount p) (num_or amt (amount p))) eqn:E;
      [|reflexivity].
    apply Qle_bool_iff in E. exfalso. apply (Qlt_not_le _ _ H E).
Qed.

Lemma requestRefund_success_bounds_witness :
  exists req,
    snd (fst (requestRefund "INV-2024-001" (Some 40%Q) "Damaged item" 0
                (db_with_payment completed_payment))) = inl (RRSuccess req) /\
    rr_isPartialRefund req = true /\ (rr_refundAmount req < rr_originalAmount req)%Q.
Proof.
  eexists. split; [reflexivity|].
  destruct (requestRefund_success_bounds "INV-2024-001" (Some 40%Q) "Damaged item" 0
              (db_with_payment completed_payment) _ eq_refl) as (_ & Hp & _).
  split; [reflexivity|]. apply Hp. reflexivity.
Defined.

(** ** Rate limiting *)

Lemma map_get_set_same k v m : map_get k (map_set k v m) = Some v.
Proof.
  induction m as [|[k' v'] m IH]; cbn.
  - rewrite String.eqb_refl. reflexivity.
  - destruct (String.eqb k' k) eqn:E; cbn; rewrite E; [reflexivity|exact IH].
Qed.

Lemma map_get_set_other k k' v m : k' <> k -> map_get k' (map_set k v m) = map_get k' m.
Proof.
  intros Hne. induction m as [|[k0 v0] m IH]; cbn.
  - destruct (String.eqb k k') eqn:E; [apply String.eqb_eq in E; congruence|reflexivity].
  - destruct (String.eqb k0 k) eqn:E; cbn.
    + apply String.eqb_eq in E. subst k0.
      destruct (String.eqb k k') eqn:E'; [apply String.eqb_eq in E'; congruence|reflexivity].
    + destruct (String.eqb k0 k'); [reflexivity|exact IH].
Qed.

Lemma map_get_notin k m : ~ In k (map fst m) -> map_get k m = None.
Proof.
  induction m as [|[k' v] m IH]; cbn; intros H; [reflexivity|].
  destruct (String.eqb k' k) eqn:E.
  - apply String.eqb_eq in E. subst. exfalso. apply H. left. reflexivity.
  - apply IH. intros Hin. apply H. right. exact Hin.
Qed.

Lemma map_set_keys k v m x :
  In x (map fst (map_set k v m)) -> x = k \/ In x (map fst m).
Proof.
  induction m as [|[k' v'] m IH]; cbn.
  - intros [H|[]]. left. congruence.
  - destruct (String.eqb k' k) eqn:E; cbn.
    + intros [H|H]; [right; left; exact H|right; right; exact H].
    + intros [H|H]; [right; left; exact H|].
      destruct (IH H) as [H'|H']; [left; exact H'|right; right; exact H'].
Qed.

Lemma map_set_nodup k v m : NoDup (map fst m) -> NoDup (map fst (map_set k v m)).
Proof.
  induction m as [|[k' v'] m IH]; cbn; intros Hnd.
  - repeat constructor. intros [].
  - inversion Hnd as [|? ? Hnotin Hnd']; subst.
    destruct (String.eqb k' k) eqn:E; cbn.
    + constructor; assumption.
    + constructor; [|apply IH; exact Hnd'].
      intros Hin. destruct (map_set_keys k v m k' Hin) as [H|H].
      * subst. rewrite String.eqb_refl in E. discriminate.
      * contradiction.
Qed.

Lemma cleanup_nodup c m : NoDup (map fst m) -> NoDup (map fst (rl_cleanup c m)).
Proof.
  unfold rl_cleanup. induction m as [|[k v] m IH]; cbn; intros Hnd; [constructor|].
  inversion Hnd as [|? ? Hnotin Hnd']; subst.
  destruct (negb (Z.ltb (rl_resetTime v) c)); cbn; [|apply IH; exact Hnd'].
  constructor; [|apply IH; exact Hnd'].
  intros Hin. apply Hnotin. apply in_map_iff in Hin as [[k' v'] [Hk Hin]].
  apply filter_In in Hin as [Hin _]. cbn in Hk. subst k'.
  apply in_map_iff. exists (k, v'). auto.
Qed.

Lemma map_get_cleanup k c m :
  NoDup (map fst m) ->
  map_get k (rl_cleanup c m) =
    match map_get k m with
    | Some e => if Z.ltb (rl_resetTime e) c then None else Some e
    | None => None
    end.
Proof.
  induction m as [|[k' v] m IH]; intros Hnd; [reflexivity|].
  cbn [map fst] in Hnd. inversion Hnd as [|? ? Hnotin Hnd']; subst.
  specialize (IH Hnd'). unfold rl_cleanup in *. cbn [filter snd].
  destruct (Z.ltb (rl_resetTime v) c) eqn:Ev; cbn [negb].
  - rewrite IH. cbn [map_get]. destruct (String.eqb k' k) eqn:Ek; [|reflexivity].
    apply String.eqb_eq in Ek. subst k'. rewrite Ev, (map_get_notin k m Hnotin). reflexivity.
  - cbn [map_get]. destruct (String.eqb k' k) eqn:Ek; [rewrite Ev; reflexivity|exact IH].
Qed.

Lemma handler_new_window cfg key now store :
  (forall e, map_get key store = Some e -> (rl_resetTime e < now)%Z) ->
  rateLimit_handler cfg key now store =
    (RLNext (maxRequests cfg) (Z.max 0 (maxRequests cfg - 1)) (now + windowMs cfg),
     map_set key (mkRateLimitEntry 1 (now + windowMs cfg)) store).
Proof.
  intros H. unfold rateLimit_handler. destruct (map_get key store) as [e|] eqn:Hg; [|reflexivity].
  specialize (H e eq_refl). apply Z.ltb_lt in H. rewrite H. reflexivity.
Qed.

Lemma handler_in_window cfg key now store c R :
  map_get key store = Some (mkRateLimitEntry c R) -> (now <= R)%Z ->
  rateLimit_handler cfg key now store =
    (if Z.ltb (maxRequests cfg) (c + 1)
     then RLTooMany (ceil_div1000 (R - now)) (maxRequests cfg) R (rl_message cfg)
     else RLNext (maxRequests cfg) (Z.max 0 (maxRequests cfg - (c + 1))) R,
     map_set key (mkRateLimitEntry (c + 1) R) store).
Proof.
  intros Hg Hle. unfold rateLimit_handler. rewrite Hg. cbn [rl_resetTime rl_count].
  replace (Z.ltb R now) with false by (symmetry; apply Z.ltb_ge; lia).
  destruct (Z.ltb (maxRequests cfg) (c + 1)); reflexivity.
Qed.

Lemma rate_run_window cfg key times store (c : nat) R :
  map_get key store = Some (mkRateLimitEntry (Z.of_nat c) R) ->
  Forall (fun t => (t <= R)%Z) times ->
  let '(outs, store') := rate_run cfg key times store in
  outs = map (fun it : nat * Z => let '(i, t) := it in
               if Z.ltb (maxRequests cfg) (Z.of_nat i)
               then RLTooMany (ceil_div1000 (R - t)) (maxRequests cfg) R (rl_message cfg)
               else RLNext (maxRequests cfg) (Z.max 0 (maxRequests cfg - Z.of_nat i)) R)
             (combine (seq (S c) (List.length times)) times) /\
  map_get key store' = Some (mkRateLimitEntry (Z.of_nat (c + List.length times)) R) /\
  (forall k, k <> key -> map_get k store' = map_get k store).
Proof.
  revert store c. induction times as [|t ts IH]; intros store c Hg Hts.
  - cbn. rewrite Nat.add_0_r. auto.
  - inversion Hts as [|? ? Ht Hts']; subst.
    cbn [rate_run]. rewrite (handler_in_window cfg key t store (Z.of_nat c) R Hg Ht).
    assert (Hg' : map_get key (map_set key (mkRateLimitEntry (Z.of_nat c + 1) R) store)
                  = Some (mkRateLimitEntry (Z.of_nat (S c)) R))
      by (rewrite map_get_set_same; do 2 f_equal; lia).
    specialize (IH _ (S c) Hg' Hts').
    destruct (rate_run cfg key ts _) as [os store2].
    destruct IH as (Hos & Hget & Hoth).
    split; [|split].
    + cbn [List.length seq combine map]. rewrite Hos.
      replace (Z.of_nat (S c)) with (Z.of_nat c + 1)%Z by lia. reflexivity.
    + rewrite Hget. do 2 f_equal. cbn [List.length]. lia.
    + intros k Hk. rewrite (Hoth k Hk). apply map_get_set_other. exact Hk.
Qed.

(** Within one window the limiter admits the first [maxRequests] requests
    of a key and refuses every later one: starting from a key with no entry
    or an expired one, the [i]-th request at a time no later than the end of
    the window opened by the first ([now + windowMs]) passes exactly when
    [i = 1] or [i <= maxRequests] (the request that opens a window always
    passes), with [X-RateLimit-Remaining] [max(0, maxRequests - i)]; a refused
    request answers 429 with [Retry-After] the seconds left in the window,
    rounded up. Refused requests still count: after [n] requests the stored
    count is [n]. No other key's entry changes. *)
Theorem rateLimit_window cfg key t0 times store :
  (forall e, map_get key store = Some e -> (rl_resetTime e < t0)%Z) ->
  Forall (fun t => (t <= t0 + windowMs cfg)%Z) times ->
  let R := (t0 + windowMs cfg)%Z in
  let '(outs, store') := rate_run cfg key (t0 :: times) store in
  outs = map (fun it : nat * Z => let '(i, t) := it in
                if Nat.eqb i 1 || Z.leb (Z.of_nat i) (maxRequests cfg)
                then RLNext (maxRequests cfg) (Z.max 0 (maxRequests cfg - Z.of_nat i)) R
                else RLTooMany (ceil_div1000 (R - t)) (maxRequests cfg) R (rl_message cfg))
             (combine (seq 1 (S (List.length times))) (t0 :: times)) /\
  map_get key store' = Some (mkRateLimitEntry (Z.of_nat (S (List.length times))) R) /\
  (forall k, k <> key -> map_get k store' = map_get k store).
Proof.
  intros Hfresh Hts R. cbn [rate_run]. rewrite (handler_new_window cfg key t0 store Hfresh).
  fold R.
  assert (Hg : map_get key (map_set key (mkRateLimitEntry 1 R) store)
               = Some (mkRateLimitEntry (Z.of_nat 1) R)) by apply map_get_set_same.
  pose proof (rate_run_window cfg key times _ 1 R Hg Hts) as Hw.
  destruct (rate_run cfg key times _) as [os store2].
  destruct Hw as (Hos & Hget & Hoth).
  split; [|split].
  - cbn [seq combine map]. cbn [Nat.eqb orb]. f_equal. rewrite Hos.
    apply map_ext_in. intros [i t] Hin.
    apply in_combine_l, in_seq in Hin.
    destruct (Nat.eqb i 1) eqn:Ei; [apply Nat.eqb_eq in Ei; lia|]. cbn [orb].
    destruct (Z.ltb (maxRequests cfg) (Z.of_nat i)) eqn:Elt.
    + apply Z.ltb_lt in Elt. replace (Z.leb (Z.of_nat i) (maxRequests cfg)) with false
        by (symmetry; apply Z.leb_gt; exact Elt). reflexivity.
    + apply Z.ltb_ge in Elt. replace (Z.leb (Z.of_nat i) (maxRequests cfg)) with true
        by (symmetry; apply Z.leb_le; exact Elt). reflexivity.
  - rewrite Hget. reflexivity.
  - intros k Hk. rewrite (Hoth k Hk). apply map_get_set_other. exact Hk.
Qed.

Lemma rateLimit_window_witness :
  let '(outs, _) := rate_run (mkRateLimitConfig 1000 2 "Slow down") "chat:user_demo"
                       [0; 10; 20]%Z [] in
  map rl_passed outs = [true; true; false].
Proof.
  pose proof (rateLimit_window (mkRateLimitConfig 1000 2 "Slow down") "chat:user_demo"
                0 [10; 20]%Z [] (fun e H => ltac:(discriminate H))
                ltac:(repeat constructor; cbn; lia)) as H.
  cbv zeta in H. destruct (rate_run _ _ _ _) as [outs st]. destruct H as [-> _].
  reflexivity.
Defined.

(** The periodic cleanup never changes what the limiter decides: for a
    store whose keys are unique (which the handler and the cleanup keep), a
    cleanup at any time [c] before the request does not change the request's
    outcome nor the entry stored for its key afterwards. *)
Theorem rateLimit_cleanup_transparent cfg key c now store :
  NoDup (map fst store) -> (c <= now)%Z ->
  fst (rateLimit_handler cfg key now (rl_cleanup c store))
    = fst (rateLimit_handler cfg key now store) /\
  map_get key (snd (rateLimit_handler cfg key now (rl_cleanup c store)))
    = map_get key (snd (rateLimit_handler cfg key now store)) /\
  NoDup (map fst (rl_cleanup c store)) /\
  NoDup (map fst (snd (rateLimit_handler cfg key now store))).
Proof.
  intros Hnd Hc.
  assert (Hset : forall s, NoDup (map fst s) ->
                   NoDup (map fst (snd (rateLimit_handler cfg key now s)))).
  { intros s Hs. unfold rateLimit_handler. cbv zeta.
    destruct (map_get key s) as [e|]; [destruct (Z.ltb (rl_resetTime e) now)|];
      cbn [snd rl_count rl_resetTime]; try destruct (Z.ltb _ _);
      cbn [snd]; apply map_set_nodup; exact Hs. }
  split; [|split; [|split; [apply cleanup_nodup; exact Hnd|apply Hset; exact Hnd]]].
  - unfold rateLimit_handler. rewrite (map_get_cleanup key c store Hnd).
    destruct (map_get key store) as [e|] eqn:Hg; [|reflexivity].
    destruct (Z.ltb (rl_resetTime e) c) eqn:Ec.
    + apply Z.ltb_lt in Ec. replace (Z.ltb (rl_resetTime e) now) with true
        by (symmetry; apply Z.ltb_lt; lia). reflexivity.
    + cbn [rl_count rl_resetTime]. destruct (Z.ltb (rl_resetTime e) now); [reflexivity|].
      destruct (Z.ltb (maxRequests cfg) (rl_count e + 1)); reflexivity.
  - unfold rateLimit_handler. rewrite (map_get_cleanup key c store Hnd).
    destruct (map_get key store) as [e|] eqn:Hg; cbv zeta;
      [|cbn [snd]; rewrite !map_get_set_same; reflexivity].
    destruct (Z.ltb (rl_resetTime e) c) eqn:Ec.
    + apply Z.ltb_lt in Ec. replace (Z.ltb (rl_resetTime e) now) with true
        by (symmetry; apply Z.ltb_lt; lia). cbn [snd]. rewrite !map_get_set_same. reflexivity.
    + cbn [rl_count rl_resetTime].
      destruct (Z.ltb (rl_resetTime e) now); [cbn [snd]; rewrite !map_get_set_same; reflexivity|].
      destruct (Z.ltb (maxRequests cfg) (rl_count e + 1)); cbn [snd];
        rewrite !map_get_set_same; reflexivity.
Qed.

Lemma rateLimit_cleanup_transparent_witness :
  let store := [("chat:alice", mkRateLimitEntry 20 1000); ("chat:bob", mkRateLimitEntry 3 5000)] in
  NoDup (map fst store) /\
  fst (rateLimit_handler chatRateLimitConfig "chat:bob" 2000 (rl_cleanup 1500 store))
    = fst (rateLimit_handler chatRateLimitConfig "chat:bob" 2000 store).
Proof.
  cbv zeta.
  assert (Hnd : NoDup (map fst [("chat:alice", mkRateLimitEntry 20 1000);
                                ("chat:bob", mkRateLimitEntry 3 5000)])).
  { cbn. constructor; [intros [H|[]]; discriminate H|]. constructor; [intros []|constructor]. }
  split; [exact Hnd|].
  exact (proj1 (rateLimit_cleanup_transparent chatRateLimitConfig "chat:bob" 1500 2000 _
                  Hnd ltac:(lia))).
Defined.

(** ** Order tools *)

(** [cancelOrder] and [modifyOrder] agree on which orders can still be
    changed: an existing order can be cancelled exactly when its status is
    [pending] or [processing], exactly when [modifyOrder] reports
    [canModify], and exactly when [modifyOrder] offers the [cancel_order]
    action. A cancellation refunds the order's total and records the given
    reason, or "Customer requested cancellation" when none (or an empty one)
    is given. An unknown order number fails both tools. *)
Theorem cancelOrder_agrees_with_modifyOrder orders num reason :
  match findOrder orders num with
  | None => cancelOrder orders num reason = CONotFound num /\
            modifyOrder orders num = MONotFound num
  | Some o =>
      (co_success (cancelOrder orders num reason) = true <->
         ostatus o = ord_pending \/ ostatus o = ord_processing) /\
      co_success (cancelOrder orders num reason) = mo_canModify (modifyOrder orders num) /\
      (In "cancel_order" (mo_actions (modifyOrder orders num)) <->
         co_success (cancelOrder orders num reason) = true) /\
      (co_success (cancelOrder orders num reason) = true ->
         cancelOrder orders num reason =
           COCancelled (orderNumber o) (ostatus o) (total o)
             (str_or reason "Customer requested cancellation"))
  end.
Proof.
  unfold cancelOrder, modifyOrder. destruct (findOrder orders num) as [o|]; [|auto].
  destruct (ostatus o) eqn:Hs; cbn; rewrite ?Hs;
    (split; [split; [intros H; discriminate H || auto
                    |intros [H|H]; discriminate H || reflexivity]|]);
    (split; [reflexivity|]);
    (split; [split; [intros H; repeat destruct H as [H|H]; discriminate H || reflexivity || contradiction
                    |intros H; discriminate H || (right; right; left; reflexivity)]|]);
    intros H; discriminate H || reflexivity.
Qed.

(** For an existing order, [checkDeliveryStatus] reports the order's status
    with a non-empty list of tracking steps that starts with the completed
    "Order Placed" step; the completed steps all come before the pending
    ones, a step is dated (with the order's [updatedAt]) exactly when it is
    completed, and every step is completed exactly for [pending],
    [delivered] and [cancelled] orders. A carrier and a tracking URL are
    given together, exactly when the order has a non-empty tracking
    number. *)
Theorem checkDeliveryStatus_tracking orders num o :
  findOrder orders num = Some o ->
  exists d,
    checkDeliveryStatus orders num = DLFound d /\
    dl_currentStatus d = ostatus o /\
    (dl_carrier d = None <-> dl_trackingUrl d = None) /\
    (dl_carrier d = None <-> trackingNumber o = None \/ trackingNumber o = Some "") /\
    hd_error (dl_trackingSteps d) = Some (mkTrackingStep "Order Placed" true (Some (updatedAt o))) /\
    dl_trackingSteps d = (filter ts_completed (dl_trackingSteps d)
                          ++ filter (fun s => negb (ts_completed s)) (dl_trackingSteps d))%list /\
    Forall (fun s => ts_date s = if ts_completed s then Some (updatedAt o) else None)
           (dl_trackingSteps d) /\
    (forallb ts_completed (dl_trackingSteps d) = true <->
       ostatus o = ord_pending \/ ostatus o = ord_delivered \/ ostatus o = ord_cancelled).
Proof.
  intros H. unfold checkDeliveryStatus. rewrite H. eexists. split; [reflexivity|].
  cbn [dl_currentStatus dl_carrier dl_trackingUrl dl_trackingSteps].
  split; [reflexivity|].
  split.
  { destruct (tracking_truthy (trackingNumber o)); split; intros Hc; discriminate Hc || reflexivity. }
  split.
  { unfold tracking_truthy. destruct (trackingNumber o) as [tn|].
    - destruct (String.eqb tn "") eqn:E.
      + apply String.eqb_eq in E. subst tn. split; intros _; [right|]; reflexivity.
      + apply String.eqb_neq in E. split; intros Hc; [discriminate Hc|].
        destruct Hc as [Hc|Hc]; injection Hc || discriminate Hc; intros; contradiction.
    - split; intros _; [left|]; reflexivity. }
  unfold trackingSteps. destruct (ostatus o); cbn;
    (split; [reflexivity|]); (split; [reflexivity|]);
    (split; [repeat constructor|]);
    split; intros Hc; try reflexivity; try discriminate Hc;
    repeat destruct Hc as [Hc|Hc]; discriminate Hc || auto.
Qed.

Lemma checkDeliveryStatus_tracking_witness :
  findOrder demo_orders "ORD-2024-001" = Some (hd (mkOrder "" ord_pending 0 None None "" 0) demo_orders) /\
  exists d,
    checkDeliveryStatus demo_orders "ORD-2024-001" = DLFound d /\
    dl_carrier d <> None.
Proof.
  split; [reflexivity|].
  destruct (checkDeliveryStatus_tracking demo_orders "ORD-2024-001" _ eq_refl)
    as (d & Hd & _ & _ & Hcar & _).
  exists d. split; [exact Hd|].
  intros Hn. apply Hcar in Hn. destruct Hn as [Hn|Hn]; discriminate Hn.
Defined.

(** ** Agents controller *)

(** [AgentsController.getAgentCapabilities] never answers 404: a route
    parameter outside [support], [order] and [billing] is refused with 400,
    and each of the three is answered with its own responder. *)
Theorem getAgentCapabilities_never_not_found type :
  match getAgentCapabilities_ctrl type with
  | CapOk a =>
      (type = "support" /\ a = supportAgent) \/ (type = "order" /\ a = orderAgent) \/
      (type = "billing" /\ a = billingAgent)
  | CapBadRequest _ => ~ In type validTypes
  | CapNotFound _ => False
  end.
Proof.
  unfold getAgentCapabilities_ctrl, getAgent_param, validTypes. cbn [existsb].
  destruct (String.eqb type "support") eqn:E1.
  { apply String.eqb_eq in E1. subst. cbn. left. auto. }
  destruct (String.eqb type "order") eqn:E2.
  { apply String.eqb_eq in E2. subst. cbn. right. left. auto. }
  destruct (String.eqb type "billing") eqn:E3.
  { apply String.eqb_eq in E3. subst. cbn. right. right. auto. }
  cbn. apply String.eqb_neq in E1, E2, E3.
  intros [H|[H|[H|[]]]]; subst; contradiction.
Qed.
